(** * Account backup and restore orchestration (cli/account_command.go)

    A shallow embedding of [actCmd.backupAction] and [actCmd.restoreAction].
    Both functions are sequences of calls to collaborators (the JetStream
    manager, the terminal, the file system, the single-stream backup and
    restore primitives).  A program is a tree of such calls, [Prog]; a
    [World] supplies the answer of every call; [run] executes a program in
    a world and yields the trace of the calls made and the way the command
    ended: a returned error value or a process exit through [fisk]. *)

From Stdlib Require Import ZArith Ascii String List Lia Bool.
From stdpp Require Import base option list gmap strings.
Import ListNotations.

Local Open Scope Z_scope.
Local Open Scope string_scope.
Local Open Scope list_scope.

(** ** Go values *)

(** Package-level error variables, compared by identity. *)
Inductive sentinel : Type :=
| jsm_ErrMemoryStreamNotSupported
| context_DeadlineExceeded
| nats_ErrNoResponders.

Definition sentinel_eqb (a b : sentinel) : bool :=
  match a, b with
  | jsm_ErrMemoryStreamNotSupported, jsm_ErrMemoryStreamNotSupported => true
  | context_DeadlineExceeded, context_DeadlineExceeded => true
  | nats_ErrNoResponders, nats_ErrNoResponders => true
  | _, _ => false
  end.

(** An [error] is a package-level variable, a value made by a collaborator
    ([errors_New]), or a value made by [fmt.Errorf] from a format and its
    operands; an operand of type [error] may be nil.  Format strings are kept as the Go source spells them (a line
    feed stays the two characters backslash, n).  The results of
    [humanize.Comma] and [humanize.IBytes] are kept unrendered. *)
Inductive error : Type :=
| pkg_error (v : sentinel)
| errors_New (text : string)
| fmt_Errorf (format : string) (a : list operand)
with operand : Type :=
| op_string (s : string)
| op_int (n : Z)
| op_error (e : option error)
| humanize_Comma (n : Z)
| humanize_IBytes (n : Z).

(** The verbs of a format, in order; [%%] is a literal percent sign. *)
Fixpoint verbs (format : string) : list ascii :=
  match format with
  | EmptyString => []
  | String c rest =>
      if Ascii.eqb c "%" then
        match rest with
        | EmptyString => []
        | String v rest' => if Ascii.eqb v "%" then verbs rest' else v :: verbs rest'
        end
      else verbs rest
  end.

(** [errors.Is(err, target)]: walk the chain of wrapped errors.  A value of
    [fmt.Errorf] wraps the operand of its [%w] verb and nothing else. *)
Fixpoint error_Is (e : error) (target : sentinel) : bool :=
  match e with
  | pkg_error v => sentinel_eqb v target
  | errors_New _ => false
  | fmt_Errorf format a =>
      (fix wrapped (vs : list ascii) (a : list operand) {struct a} : bool :=
         match a with
         | [] => false
         | o :: a' =>
             match vs with
             | [] => false
             | v :: vs' =>
                 if Ascii.eqb v "w"
                 then match o with op_error (Some e') => error_Is e' target | _ => false end
                 else wrapped vs' a'
             end
         end) (verbs format) a
  end.

(** [err != nil] *)
Definition not_nil (err : option error) : bool :=
  match err with
  | Some _ => true
  | None => false
  end.

Definition errors_Is (err : option error) (target : sentinel) : bool :=
  match err with
  | None => false
  | Some e => error_Is e target
  end.

(** [uint64] and (64-bit) [int] addition. *)
Definition uint64_add (a b : Z) : Z := (a + b) mod 2 ^ 64.
Definition int_add (a b : Z) : Z := (a + b + 2 ^ 63) mod 2 ^ 64 - 2 ^ 63.

(** ** path/filepath (POSIX separator) *)

Fixpoint split_slash (cur : string) (s : string) : list string :=
  match s with
  | EmptyString => [cur]
  | String c rest =>
      if Ascii.eqb c "/" then cur :: split_slash "" rest
      else split_slash (cur +:+ String c "") rest
  end.

Fixpoint strings_Join (elems : list string) (sep : string) : string :=
  match elems with
  | [] => ""
  | [e] => e
  | e :: rest => e +:+ sep +:+ strings_Join rest sep
  end.

(** The stack of kept elements is held innermost first. *)
Definition clean_step (rooted : bool) (stack : list string) (elem : string) : list string :=
  if String.eqb elem "" then stack
  else if String.eqb elem "." then stack
  else if String.eqb elem ".." then
    match stack with
    | top :: below => if String.eqb top ".." then elem :: stack else below
    | [] => if rooted then [] else [elem]
    end
  else elem :: stack.

Definition filepath_Clean (path : string) : string :=
  match path with
  | EmptyString => "."
  | String c _ =>
      let rooted := Ascii.eqb c "/" in
      let stack := fold_left (clean_step rooted) (split_slash "" path) [] in
      let out := (if rooted then "/" else "") +:+ strings_Join (rev stack) "/" in
      if String.eqb out "" then "." else out
  end.

Fixpoint filepath_Join (elem : list string) : string :=
  match elem with
  | [] => ""
  | e :: rest =>
      if String.eqb e "" then filepath_Join rest
      else filepath_Clean (strings_Join elem "/")
  end.

Arguments filepath_Join : simpl never.

(** ** Data of the command *)

Module Stream.
(** [*jsm.Stream]: the handle of one remote stream. *)
Record t : Type := mk { Name : string }.
End Stream.

Module StreamState.
(** [api.StreamState], the two fields the command reads. *)
Record t : Type := mk { Bytes : Z; Consumers : Z }.
Definition zero : t := mk 0 0.
End StreamState.

Module DirEntry.
(** [os.DirEntry] as returned by [os.ReadDir]. *)
Record t : Type := mk { Name : string; IsDir : bool }.
End DirEntry.

Record actCmd : Type := {
  sort : string;
  subject : string;
  topk : Z;
  backupDirectory : string;
  healthCheck : bool;
  snapShotConsumers : bool;
  force : bool;
  failOnWarn : bool;
  placementCluster : string;
  placementTags : list string
}.

Module streamCmd.
(** [streamCmd], the fields [restoreAction] sets before it calls the
    single-stream restore. *)
Record t : Type := mk {
  msgID : Z;
  showProgress : bool;
  placementCluster : string;
  placementTags : list string;
  backupDirectory : string
}.
Definition with_backupDirectory (s : t) (dir : string) : t :=
  mk (msgID s) (showProgress s) (placementCluster s) (placementTags s) dir.
End streamCmd.

(** ** Calls to collaborators *)

(** Modelled from the spec: the declaration of [backupStream] is in another
    file of the package; the names of its parameters are those of the
    backup primitive of section 6 of the specification,
    [backup(streamHandle, verifyHealth, includeConsumers,
    includeSubjectFilters, targetDir)], in that order. *)
Record BackupArgs : Type := {
  streamHandle : Stream.t;
  verifyHealth : bool;
  includeConsumers : bool;
  includeSubjectFilters : bool;
  targetDir : string
}.

(** A call and the type of its answer.  [prepareHelper] answers its error
    only: its connection and manager are the [World] itself. *)
Inductive Call : Type -> Type :=
| prepareHelper : Call (option error)
| mgr_Streams : Call (list Stream.t * option error)
| mgr_StreamNames : Call (list string * option error)
| LatestState (s : Stream.t) : Call (StreamState.t * option error)
| fmt_Printf (format : string) (a : list operand) : Call unit
| fmt_Println : Call unit
| askConfirmation (prompt : string) (dflt : bool) : Call (bool * option error)
| os_MkdirAll (path : string) (perm : Z) : Call (option error)
| os_ReadDir (name : string) : Call (list DirEntry.t * option error)
| os_Stat (name : string) : Call (option error)
| backupStream (args : BackupArgs) : Call (option error)
| streamCmd_restoreAction (s : streamCmd.t) : Call (option error).

Definition Ev : Type := { X : Type & Call X }.
Definition ev {X : Type} (c : Call X) : Ev := @existT Type Call X c.

(** The single-stream backups and restores of a trace, oldest first. *)
Definition backup_of (e : Ev) : option BackupArgs :=
  match projT2 e with
  | backupStream args => Some args
  | _ => None
  end.

Definition restore_of (e : Ev) : option streamCmd.t :=
  match projT2 e with
  | streamCmd_restoreAction s => Some s
  | _ => None
  end.

Definition backups (tr : list Ev) : list BackupArgs := omap backup_of tr.
Definition restores (tr : list Ev) : list streamCmd.t := omap restore_of tr.

Definition is_MkdirAll (e : Ev) : bool :=
  match projT2 e with os_MkdirAll _ _ => true | _ => false end.
Definition is_askConfirmation (e : Ev) : bool :=
  match projT2 e with askConfirmation _ _ => true | _ => false end.
Definition is_backupStream (e : Ev) : bool :=
  match projT2 e with backupStream _ => true | _ => false end.

(** A call that changes the file system. *)
Definition changes_files (e : Ev) : bool := is_MkdirAll e || is_backupStream e.

(** The world a command runs in.  Queries have one answer each; the answer
    of a single-stream backup or restore may depend on the backups or
    restores made before it. *)
Record World : Type := {
  prepareHelper_err : option error;
  Streams_result : list Stream.t * option error;
  StreamNames_result : list string * option error;
  LatestState_result : Stream.t -> StreamState.t * option error;
  askConfirmation_result : string -> bool -> bool * option error;
  MkdirAll_result : string -> Z -> option error;
  ReadDir_result : string -> list DirEntry.t * option error;
  Stat_result : string -> option error;
  backupStream_result : list BackupArgs -> BackupArgs -> option error;
  restore_result : list streamCmd.t -> streamCmd.t -> option error
}.

Definition respond (w : World) (h : list Ev) {X : Type} (c : Call X) : X :=
  match c in Call X return X with
  | prepareHelper => prepareHelper_err w
  | mgr_Streams => Streams_result w
  | mgr_StreamNames => StreamNames_result w
  | LatestState s => LatestState_result w s
  | fmt_Printf _ _ => tt
  | fmt_Println => tt
  | askConfirmation prompt dflt => askConfirmation_result w prompt dflt
  | os_MkdirAll path perm => MkdirAll_result w path perm
  | os_ReadDir name => ReadDir_result w name
  | os_Stat name => Stat_result w name
  | backupStream args => backupStream_result w (backups h) args
  | streamCmd_restoreAction s => restore_result w (restores h) s
  end.

(** ** Programs *)

(** The two ways [fisk] ends the process. *)
Inductive fatal : Type :=
| Fatalf (format : string) (a : list operand)
| FatalIfError (err : error) (format : string) (a : list operand).

Inductive Prog (R : Type) : Type :=
| Ret (r : R)
| Exit (f : fatal)
| Do (X : Type) (c : Call X) (k : X -> Prog R).

Arguments Ret {R} r.
Arguments Exit {R} f.
Arguments Do {R X} c k.

Fixpoint bind {A B : Type} (p : Prog A) (k : A -> Prog B) : Prog B :=
  match p with
  | Ret a => k a
  | Exit f => Exit f
  | Do c k' => Do c (fun x => bind (k' x) k)
  end.

Definition call {X : Type} (c : Call X) : Prog X := Do c Ret.

Declare Scope prog_scope.
Delimit Scope prog_scope with prog.
Notation "'let*' x ':=' p 'in' q" := (bind p (fun x => q))
  (at level 10, x pattern, p at level 100, q at level 200) : prog_scope.
Notation "p ;; q" := (bind p (fun _ => q))
  (at level 100, q at level 200, right associativity) : prog_scope.
Local Open Scope prog_scope.

Definition fisk_Fatalf {R : Type} (format : string) (a : list operand) : Prog R :=
  Exit (Fatalf format a).

Definition fisk_FatalIfError (err : option error) (format : string) (a : list operand)
  : Prog unit :=
  match err with
  | Some e => Exit (FatalIfError e format a)
  | None => Ret tt
  end.

(** [for _, x := range l { body }] over the variables [S] the body updates. *)
Fixpoint for_range {A S : Type} (l : list A) (body : A -> S -> Prog S) (st : S) : Prog S :=
  match l with
  | [] => Ret st
  | x :: rest => let* st' := body x st in for_range rest body st'
  end.

Inductive Outcome (R : Type) : Type :=
| Returned (r : R)
| Exited (f : fatal).

Arguments Returned {R} r.
Arguments Exited {R} f.

(** [run w h p]: the trace [h] so far, extended by the calls of [p]. *)
Fixpoint run {R : Type} (w : World) (h : list Ev) (p : Prog R) : list Ev * Outcome R :=
  match p with
  | Ret r => (h, Returned r)
  | Exit f => (h, Exited f)
  | Do c k => run w (h ++ [ev c]) (k (respond w h c))
  end.

Definition trace {R : Type} (w : World) (p : Prog R) : list Ev := fst (run w [] p).
Definition outcome {R : Type} (w : World) (p : Prog R) : Outcome R := snd (run w [] p).

(** ** The commands *)

Definition len {A : Type} (l : list A) : Z := Z.of_nat (length l).

(** Body of the first loop of [backupAction]; the variables it updates are
    [(totalSize, totalConsumers)]. *)
Definition add_LatestState (s : Stream.t) (totals : Z * Z) : Prog (Z * Z) :=
  let* (state, _) := call (LatestState s) in
  Ret (uint64_add (fst totals) (StreamState.Bytes state),
       int_add (snd totals) (StreamState.Consumers state)).

(** Body of the second loop of [backupAction]; the variables it updates are
    [(errs, warns)]. *)
Definition backup_one (c : actCmd) (s : Stream.t) (acc : list error * list error)
  : Prog (list error * list error) :=
  let* err := call (backupStream
                      {| streamHandle := s;
                         verifyHealth := false;
                         includeConsumers := snapShotConsumers c;
                         includeSubjectFilters := healthCheck c;
                         targetDir := filepath_Join [backupDirectory c; Stream.Name s] |}) in
  let* acc' :=
    (if errors_Is err jsm_ErrMemoryStreamNotSupported then
       call (fmt_Printf "Backup of %s failed: %v\n" [op_string (Stream.Name s); op_error err]);;
       Ret (fst acc,
            snd acc ++ [fmt_Errorf "%s: %w" [op_string (Stream.Name s); op_error err]])
     else if not_nil err then
       call (fmt_Printf "Backup of %s failed: %s\n" [op_string (Stream.Name s); op_error err]);;
       Ret (fst acc ++ [fmt_Errorf "%s: %s" [op_string (Stream.Name s); op_error err]],
            snd acc)
     else Ret acc) in
  call fmt_Println;;
  Ret acc'.

Definition print_each (err : error) (_ : unit) : Prog unit :=
  call (fmt_Printf "  %s\n" [op_error (Some err)]).

Definition backupAction (c : actCmd) : Prog (option error) :=
  let* err := call prepareHelper in
  fisk_FatalIfError err "setup failed" [];;
  let* (streams, err) := call mgr_Streams in
  if not_nil err then Ret err else
  if (len streams =? 0)%Z then Ret (Some (fmt_Errorf "no streams found" [])) else
  let* (totalSize, totalConsumers) := for_range streams add_LatestState (0, 0) in
  call (fmt_Printf "Performing backup of all streams to %s\n\n" [op_string (backupDirectory c)]);;
  call (fmt_Printf "    Streams: %s\n" [humanize_Comma (len streams)]);;
  call (fmt_Printf "       Size: %s\n" [humanize_IBytes totalSize]);;
  call (fmt_Printf "  Consumers: %s\n" [humanize_Comma totalConsumers]);;
  call fmt_Println;;
  let* proceed :=
    (if negb (force c) then
       let* (ok, err) := call (askConfirmation "Perform backup" false) in
       if not_nil err then Ret (inl err)
       else if negb ok then Ret (inl None)
       else Ret (inr tt)
     else Ret (inr tt)) in
  match proceed with
  | inl result => Ret result
  | inr _ =>
  (* 0700 *)
  let* err := call (os_MkdirAll (backupDirectory c) 448) in
  if not_nil err then Ret err else
  let* (errs, warns) := for_range streams (backup_one c) ([], []) in
  (if len warns >? 0 then
     call (fmt_Printf "Backup Warnings: \n" []);;
     for_range warns print_each tt;;
     call fmt_Println
   else Ret tt);;
  (if len errs >? 0 then
     call (fmt_Printf "Backup failures: \n" []);;
     for_range errs print_each tt;;
     call fmt_Println
   else Ret tt);;
  if (len errs >? 0) || (len warns >? 0) && failOnWarn c
  then Ret (Some (fmt_Errorf "backup failed" []))
  else Ret None
  end.

(** Body of the validation loop of [restoreAction]; [err] is the variable
    of the enclosing function, last assigned by [os.ReadDir]. *)
Definition validate_entry (c : actCmd) (existingStreams : gmap string unit)
    (err : option error) (d : DirEntry.t) (_ : unit) : Prog unit :=
  (if negb (DirEntry.IsDir d)
   then fisk_FatalIfError err "expected a directory" []
   else Ret tt);;
  (if bool_decide (is_Some (existingStreams !! DirEntry.Name d))
   then fisk_Fatalf "stream %q exists already" [op_string (DirEntry.Name d)]
   else Ret tt);;
  let* err := call (os_Stat (filepath_Join [backupDirectory c; DirEntry.Name d; "backup.json"])) in
  fisk_FatalIfError err "expected backup.json" [].

(** Body of the restore loop; the variable it updates is [s]. *)
Definition restore_entry (c : actCmd) (d : DirEntry.t) (s : streamCmd.t) : Prog streamCmd.t :=
  let s := streamCmd.with_backupDirectory s
             (filepath_Join [backupDirectory c; DirEntry.Name d]) in
  let* err := call (streamCmd_restoreAction s) in
  fisk_FatalIfError err "restore for %s failed" [op_string (DirEntry.Name d)];;
  Ret s.

Definition restoreAction (c : actCmd) : Prog (option error) :=
  let* err := call prepareHelper in
  fisk_FatalIfError err "setup failed" [];;
  let* (streams, err) := call mgr_StreamNames in
  if not_nil err then Ret err else
  let existingStreams :=
    fold_left (fun m n => <[n := tt]> m) streams (∅ : gmap string unit) in
  let* (de, err) := call (os_ReadDir (backupDirectory c)) in
  fisk_FatalIfError err "setup failed" [];;
  for_range de (validate_entry c existingStreams err) tt;;
  call (fmt_Printf "Restoring backup of all %d streams in directory %q\n\n"
          [op_int (len de); op_string (backupDirectory c)]);;
  let s := streamCmd.mk (-1) false (placementCluster c) (placementTags c) "" in
  for_range de (restore_entry c) s;;
  Ret None.

(** ** Vocabulary of the specification: backup *)

(** The outcome record of one stream (section 3). *)
Inductive StreamOutcome : Type :=
| Success
| Warning (reason : error)
| Failure (reason : error).

(** Section 4.2, step 5: the unsupported-storage-class error is a warning,
    any other error a failure, no error a success. *)
Definition classify (err : option error) : StreamOutcome :=
  match err with
  | None => Success
  | Some e => if error_Is e jsm_ErrMemoryStreamNotSupported then Warning e else Failure e
  end.

(** The arguments of the single-stream backup of [s]. *)
Definition primitive_call (c : actCmd) (s : Stream.t) : BackupArgs :=
  {| streamHandle := s;
     verifyHealth := false;
     includeConsumers := snapShotConsumers c;
     includeSubjectFilters := healthCheck c;
     targetDir := filepath_Join [backupDirectory c; Stream.Name s] |}.

(** The answers of the world when [streams] are backed up one after the
    other, after the backups [prev]. *)
Fixpoint primitive_answers (w : World) (c : actCmd) (prev : list BackupArgs)
    (streams : list Stream.t) : list (option error) :=
  match streams with
  | [] => []
  | s :: rest =>
      backupStream_result w prev (primitive_call c s)
        :: primitive_answers w c (prev ++ [primitive_call c s]) rest
  end.

Definition stream_outcomes (w : World) (c : actCmd) : list StreamOutcome :=
  map classify (primitive_answers w c [] (fst (Streams_result w))).

Definition has_Failure (l : list StreamOutcome) : Prop := exists e, In (Failure e) l.
Definition has_Warning (l : list StreamOutcome) : Prop := exists e, In (Warning e) l.

(** Section 4.2, step 7. *)
Definition run_fails (c : actCmd) (l : list StreamOutcome) : Prop :=
  has_Failure l \/ (has_Warning l /\ failOnWarn c = true).

(** The two ordered sequences of section 3, as the command records them. *)
Definition failure_record (answer : Stream.t * option error) : option error :=
  match classify (snd answer) with
  | Failure _ =>
      Some (fmt_Errorf "%s: %s" [op_string (Stream.Name (fst answer)); op_error (snd answer)])
  | _ => None
  end.

Definition warning_record (answer : Stream.t * option error) : option error :=
  match classify (snd answer) with
  | Warning _ =>
      Some (fmt_Errorf "%s: %w" [op_string (Stream.Name (fst answer)); op_error (snd answer)])
  | _ => None
  end.

Definition recorded_failures (w : World) (c : actCmd) (prev : list BackupArgs)
    (streams : list Stream.t) : list error :=
  omap failure_record (combine streams (primitive_answers w c prev streams)).

Definition recorded_warnings (w : World) (c : actCmd) (prev : list BackupArgs)
    (streams : list Stream.t) : list error :=
  omap warning_record (combine streams (primitive_answers w c prev streams)).

(** What one stream adds to the trace. *)
Definition stream_events (c : actCmd) (s : Stream.t) (err : option error) : list Ev :=
  ev (backupStream (primitive_call c s))
  :: match classify err with
     | Success => []
     | Warning _ =>
         [ev (fmt_Printf "Backup of %s failed: %v\n" [op_string (Stream.Name s); op_error err])]
     | Failure _ =>
         [ev (fmt_Printf "Backup of %s failed: %s\n" [op_string (Stream.Name s); op_error err])]
     end
  ++ [ev fmt_Println].

Fixpoint phase_events (w : World) (c : actCmd) (prev : list BackupArgs)
    (streams : list Stream.t) : list Ev :=
  match streams with
  | [] => []
  | s :: rest =>
      stream_events c s (backupStream_result w prev (primitive_call c s))
      ++ phase_events w c (prev ++ [primitive_call c s]) rest
  end.

(** The itemized report of one of the two sequences. *)
Definition report_events (title : string) (l : list error) : list Ev :=
  match l with
  | [] => []
  | _ => ev (fmt_Printf title [])
         :: map (fun e => ev (fmt_Printf "  %s\n" [op_error (Some e)])) l
         ++ [ev fmt_Println]
  end.

(** The totals of step 2: what each stream's state adds. *)
Definition total_bytes (w : World) (streams : list Stream.t) : Z :=
  fold_right Z.add 0 (map (fun s => StreamState.Bytes (fst (LatestState_result w s))) streams).

Definition total_consumers (w : World) (streams : list Stream.t) : Z :=
  fold_right Z.add 0 (map (fun s => StreamState.Consumers (fst (LatestState_result w s))) streams).

(** The summary of step 3. *)
Definition summary_events (c : actCmd) (n totalSize totalConsumers : Z) : list Ev :=
  [ ev (fmt_Printf "Performing backup of all streams to %s\n\n" [op_string (backupDirectory c)]);
    ev (fmt_Printf "    Streams: %s\n" [humanize_Comma n]);
    ev (fmt_Printf "       Size: %s\n" [humanize_IBytes totalSize]);
    ev (fmt_Printf "  Consumers: %s\n" [humanize_Comma totalConsumers]);
    ev fmt_Println ].

(** The command got its connection and a non-empty list of streams. *)
Definition reaches_gate (w : World) : Prop :=
  prepareHelper_err w = None /\
  snd (Streams_result w) = None /\
  fst (Streams_result w) <> [].

(** The command reaches the per-stream backup phase. *)
Definition reaches_phase (w : World) (c : actCmd) : Prop :=
  reaches_gate w /\
  (force c = true \/ askConfirmation_result w "Perform backup" false = (true, None)) /\
  MkdirAll_result w (backupDirectory c) 448 = None.

(** The totals as the summary shows them: [uint64] and [int] sums. *)
Definition shown_size (w : World) : Z :=
  total_bytes w (fst (Streams_result w)) mod 2 ^ 64.

Definition shown_consumers (w : World) : Z :=
  (total_consumers w (fst (Streams_result w)) + 2 ^ 63) mod 2 ^ 64 - 2 ^ 63.

(** The trace up to the confirmation gate. *)
Definition preamble_events (w : World) (c : actCmd) : list Ev :=
  [ev prepareHelper; ev mgr_Streams]
  ++ map (fun s => ev (LatestState s)) (fst (Streams_result w))
  ++ summary_events c (len (fst (Streams_result w))) (shown_size w) (shown_consumers w).

Definition gate_events (c : actCmd) : list Ev :=
  if force c then [] else [ev (askConfirmation "Perform backup" false)].

(** The trace and the result of a run that reaches the per-stream phase. *)
Definition phase_trace (w : World) (c : actCmd) : list Ev :=
  preamble_events w c
  ++ gate_events c
  ++ [ev (os_MkdirAll (backupDirectory c) 448)]
  ++ phase_events w c [] (fst (Streams_result w))
  ++ report_events "Backup Warnings: \n" (recorded_warnings w c [] (fst (Streams_result w)))
  ++ report_events "Backup failures: \n" (recorded_failures w c [] (fst (Streams_result w))).

Definition phase_result (w : World) (c : actCmd) : option error :=
  match recorded_failures w c [] (fst (Streams_result w)),
        recorded_warnings w c [] (fst (Streams_result w)) with
  | _ :: _, _ => Some (fmt_Errorf "backup failed" [])
  | [], _ :: _ => if failOnWarn c then Some (fmt_Errorf "backup failed" []) else None
  | [], [] => None
  end.


(** What a stream adds to the totals when a failed read counts for zero. *)
Definition bytes_read (w : World) (s : Stream.t) : Z :=
  match snd (LatestState_result w s) with
  | None => StreamState.Bytes (fst (LatestState_result w s))
  | Some _ => 0
  end.

Definition consumers_read (w : World) (s : Stream.t) : Z :=
  match snd (LatestState_result w s) with
  | None => StreamState.Consumers (fst (LatestState_result w s))
  | Some _ => 0
  end.

Definition sum_of (l : list Z) : Z := fold_right Z.add 0 l.

(** [LatestState] of the jsm library answers the zero state with an error. *)
Definition zero_state_on_error (w : World) : Prop :=
  forall s, snd (LatestState_result w s) <> None ->
            fst (LatestState_result w s) = StreamState.zero.

(** ** Vocabulary of the specification: restore *)

(** The entries of the source root and the stream names of the target. *)
Definition entries (w : World) (c : actCmd) : list DirEntry.t :=
  fst (ReadDir_result w (backupDirectory c)).

Definition existing (w : World) : list string := fst (StreamNames_result w).

Definition manifest_path (c : actCmd) (d : DirEntry.t) : string :=
  filepath_Join [backupDirectory c; DirEntry.Name d; "backup.json"].

Definition collides (w : World) (d : DirEntry.t) : Prop := In (DirEntry.Name d) (existing w).

Definition lacks_manifest (w : World) (c : actCmd) (d : DirEntry.t) : Prop :=
  Stat_result w (manifest_path c d) <> None.

(** An entry passes the validation against the map of existing names. *)
Definition entry_valid (w : World) (c : actCmd) (ex : gmap string unit) (d : DirEntry.t)
  : Prop :=
  ~ is_Some (ex !! DirEntry.Name d) /\ Stat_result w (manifest_path c d) = None.

(** The command got its connection, the stream names and the entries. *)
Definition restore_ready (w : World) (c : actCmd) : Prop :=
  prepareHelper_err w = None /\
  snd (StreamNames_result w) = None /\
  snd (ReadDir_result w (backupDirectory c)) = None.

Definition validation_passes (w : World) (c : actCmd) : Prop :=
  restore_ready w c /\
  forall d, In d (entries w c) -> ~ collides w d /\ Stat_result w (manifest_path c d) = None.

(** The single-stream restore of the artifact directory [d]: the restore
    primitive with its source and the placement constraint. *)
Definition restore_call (c : actCmd) (d : DirEntry.t) : streamCmd.t :=
  streamCmd.mk (-1) false (placementCluster c) (placementTags c)
    (filepath_Join [backupDirectory c; DirEntry.Name d]).

(** The answers of the world when [cmds] are restored one after the other,
    after the restores [prev]. *)
Fixpoint restore_answers (w : World) (prev cmds : list streamCmd.t) : list (option error) :=
  match cmds with
  | [] => []
  | s :: rest => restore_result w prev s :: restore_answers w (prev ++ [s]) rest
  end.

(** Position and error of the first answer that is an error. *)
Fixpoint first_failure (answers : list (option error)) : option (nat * error) :=
  match answers with
  | [] => None
  | Some e :: _ => Some (0%nat, e)
  | None :: rest =>
      match first_failure rest with
      | Some (i, e) => Some (S i, e)
      | None => None
      end
  end.

Definition stats (tr : list Ev) : list string :=
  omap (fun e => match projT2 e with os_Stat name => Some name | _ => None end) tr.

(** The trace up to the validation of the entries. *)
Definition setup_events (c : actCmd) : list Ev :=
  [ev prepareHelper; ev mgr_StreamNames; ev (os_ReadDir (backupDirectory c))].

Definition announce_event (w : World) (c : actCmd) : Ev :=
  ev (fmt_Printf "Restoring backup of all %d streams in directory %q\n\n"
        [op_int (len (entries w c)); op_string (backupDirectory c)]).

(** ** Sample worlds *)

Module Sample.

Definition mem : error := pkg_error jsm_ErrMemoryStreamNotSupported.

(** Three streams: ORDERS backs up, CACHE is a memory stream, LOGS fails;
    the state of CACHE cannot be read.  The target account of a restore
    holds EVENTS; the backup root holds ORDERS and LOGS. *)
Definition world : World := {|
  prepareHelper_err := None;
  Streams_result := ([Stream.mk "ORDERS"; Stream.mk "CACHE"; Stream.mk "LOGS"], None);
  StreamNames_result := (["EVENTS"], None);
  LatestState_result := fun s =>
    if String.eqb (Stream.Name s) "CACHE"
    then (StreamState.zero, Some (errors_New "context deadline exceeded"))
    else (StreamState.mk 4096 2, None);
  askConfirmation_result := fun _ _ => (true, None);
  MkdirAll_result := fun _ _ => None;
  ReadDir_result := fun _ => ([DirEntry.mk "ORDERS" true; DirEntry.mk "LOGS" true], None);
  Stat_result := fun _ => None;
  backupStream_result := fun _ a =>
    if String.eqb (Stream.Name (streamHandle a)) "CACHE" then Some mem
    else if String.eqb (Stream.Name (streamHandle a)) "LOGS"
         then Some (errors_New "snapshot failed")
         else None;
  restore_result := fun _ _ => None
|}.

Definition cmd : actCmd := {|
  sort := "subs"; subject := ""; topk := 1000;
  backupDirectory := "/backup";
  healthCheck := true; snapShotConsumers := true;
  force := false; failOnWarn := false;
  placementCluster := "east"; placementTags := ["ssd"]
|}.

(** An account without streams. *)
Definition empty_account : World := {|
  prepareHelper_err := prepareHelper_err world;
  Streams_result := ([], None);
  StreamNames_result := ([], None);
  LatestState_result := LatestState_result world;
  askConfirmation_result := askConfirmation_result world;
  MkdirAll_result := MkdirAll_result world;
  ReadDir_result := ReadDir_result world;
  Stat_result := Stat_result world;
  backupStream_result := backupStream_result world;
  restore_result := restore_result world
|}.

(** The backup root holds ORDERS, which is not a directory: a symbolic
    link to an artifact directory, whose manifest [os.Stat] finds. *)
Definition linked_root : World := {|
  prepareHelper_err := prepareHelper_err world;
  Streams_result := Streams_result world;
  StreamNames_result := StreamNames_result world;
  LatestState_result := LatestState_result world;
  askConfirmation_result := askConfirmation_result world;
  MkdirAll_result := MkdirAll_result world;
  ReadDir_result := fun _ => ([DirEntry.mk "ORDERS" false], None);
  Stat_result := Stat_result world;
  backupStream_result := backupStream_result world;
  restore_result := restore_result world
|}.

(** The backup root holds ORDERS and then EVENTS, which exists on the
    target account. *)
Definition late_collision : World := {|
  prepareHelper_err := prepareHelper_err world;
  Streams_result := Streams_result world;
  StreamNames_result := StreamNames_result world;
  LatestState_result := LatestState_result world;
  askConfirmation_result := askConfirmation_result world;
  MkdirAll_result := MkdirAll_result world;
  ReadDir_result := fun _ => ([DirEntry.mk "ORDERS" true; DirEntry.mk "EVENTS" true], None);
  Stat_result := Stat_result world;
  backupStream_result := backupStream_result world;
  restore_result := restore_result world
|}.

(** The restore of the first artifact fails. *)
Definition failing_restore : World := {|
  prepareHelper_err := prepareHelper_err world;
  Streams_result := Streams_result world;
  StreamNames_result := StreamNames_result world;
  LatestState_result := LatestState_result world;
  askConfirmation_result := askConfirmation_result world;
  MkdirAll_result := MkdirAll_result world;
  ReadDir_result := ReadDir_result world;
  Stat_result := Stat_result world;
  backupStream_result := backupStream_result world;
  restore_result := fun prev _ =>
    match prev with
    | [] => Some (errors_New "stream name already in use")
    | _ => None
    end
|}.

(** Two streams, of which CACHE is a memory stream. *)
Definition memory_stream : World := {|
  prepareHelper_err := prepareHelper_err world;
  Streams_result := ([Stream.mk "ORDERS"; Stream.mk "CACHE"], None);
  StreamNames_result := StreamNames_result world;
  LatestState_result := LatestState_result world;
  askConfirmation_result := askConfirmation_result world;
  MkdirAll_result := MkdirAll_result world;
  ReadDir_result := ReadDir_result world;
  Stat_result := Stat_result world;
  backupStream_result := fun _ a =>
    if String.eqb (Stream.Name (streamHandle a)) "CACHE" then Some mem else None;
  restore_result := restore_result world
|}.

(** [--critical-warnings] and [--force]. *)
Definition strict : actCmd := {|
  sort := sort cmd; subject := subject cmd; topk := topk cmd;
  backupDirectory := backupDirectory cmd;
  healthCheck := healthCheck cmd; snapShotConsumers := snapShotConsumers cmd;
  force := force cmd; failOnWarn := true;
  placementCluster := placementCluster cmd; placementTags := placementTags cmd
|}.

Definition forced : actCmd := {|
  sort := sort cmd; subject := subject cmd; topk := topk cmd;
  backupDirectory := backupDirectory cmd;
  healthCheck := healthCheck cmd; snapShotConsumers := snapShotConsumers cmd;
  force := true; failOnWarn := failOnWarn cmd;
  placementCluster := placementCluster cmd; placementTags := placementTags cmd
|}.

(** The operator answers no. *)
Definition declined : World := {|
  prepareHelper_err := prepareHelper_err world;
  Streams_result := Streams_result world;
  StreamNames_result := StreamNames_result world;
  LatestState_result := LatestState_result world;
  askConfirmation_result := fun _ _ => (false, None);
  MkdirAll_result := MkdirAll_result world;
  ReadDir_result := ReadDir_result world;
  Stat_result := Stat_result world;
  backupStream_result := backupStream_result world;
  restore_result := restore_result world
|}.

End Sample.

(** ** Further vocabulary *)

(** The command with another [--critical-warnings]. *)
Definition with_failOnWarn (c : actCmd) (b : bool) : actCmd := {|
  sort := sort c; subject := subject c; topk := topk c;
  backupDirectory := backupDirectory c;
  healthCheck := healthCheck c; snapShotConsumers := snapShotConsumers c;
  force := force c; failOnWarn := b;
  placementCluster := placementCluster c; placementTags := placementTags c
|}.

(** The world in which [os.ReadDir] reports every entry as a directory. *)
Definition as_directory (d : DirEntry.t) : DirEntry.t := DirEntry.mk (DirEntry.Name d) true.

Definition as_directories (w : World) : World := {|
  prepareHelper_err := prepareHelper_err w;
  Streams_result := Streams_result w;
  StreamNames_result := StreamNames_result w;
  LatestState_result := LatestState_result w;
  askConfirmation_result := askConfirmation_result w;
  MkdirAll_result := MkdirAll_result w;
  ReadDir_result := fun name =>
    (map as_directory (fst (ReadDir_result w name)), snd (ReadDir_result w name));
  Stat_result := Stat_result w;
  backupStream_result := backupStream_result w;
  restore_result := restore_result w
|}.

(** The calls of a stream whose backup succeeds. *)
Definition quiet_events (c : actCmd) (s : Stream.t) : list Ev :=
  [ev (backupStream (primitive_call c s)); ev fmt_Println].

Definition stat_events (c : actCmd) (de : list DirEntry.t) : list Ev :=
  map (fun d => ev (os_Stat (manifest_path c d))) de.

(** ** Further sample worlds *)

Module Cases.

(** No connection to the server. *)
Definition no_connection : World := {|
  prepareHelper_err := Some (errors_New "nats: no servers available for connection");
  Streams_result := Streams_result Sample.world;
  StreamNames_result := StreamNames_result Sample.world;
  LatestState_result := LatestState_result Sample.world;
  askConfirmation_result := askConfirmation_result Sample.world;
  MkdirAll_result := MkdirAll_result Sample.world;
  ReadDir_result := ReadDir_result Sample.world;
  Stat_result := Stat_result Sample.world;
  backupStream_result := backupStream_result Sample.world;
  restore_result := restore_result Sample.world
|}.

(** The streams and the stream names cannot be listed. *)
Definition no_listing : World := {|
  prepareHelper_err := None;
  Streams_result := ([], Some (errors_New "context deadline exceeded"));
  StreamNames_result := ([], Some (errors_New "context deadline exceeded"));
  LatestState_result := LatestState_result Sample.world;
  askConfirmation_result := askConfirmation_result Sample.world;
  MkdirAll_result := MkdirAll_result Sample.world;
  ReadDir_result := ReadDir_result Sample.world;
  Stat_result := Stat_result Sample.world;
  backupStream_result := backupStream_result Sample.world;
  restore_result := restore_result Sample.world
|}.

(** The target directory cannot be created; the source root cannot be read. *)
Definition no_disk : World := {|
  prepareHelper_err := None;
  Streams_result := Streams_result Sample.world;
  StreamNames_result := StreamNames_result Sample.world;
  LatestState_result := LatestState_result Sample.world;
  askConfirmation_result := askConfirmation_result Sample.world;
  MkdirAll_result := fun _ _ => Some (errors_New "mkdir /backup: permission denied");
  ReadDir_result := fun _ => ([], Some (errors_New "open /backup: permission denied"));
  Stat_result := Stat_result Sample.world;
  backupStream_result := backupStream_result Sample.world;
  restore_result := restore_result Sample.world
|}.

(** Every backup succeeds; the source root of a restore is empty. *)
Definition healthy : World := {|
  prepareHelper_err := None;
  Streams_result := Streams_result Sample.world;
  StreamNames_result := StreamNames_result Sample.world;
  LatestState_result := LatestState_result Sample.world;
  askConfirmation_result := askConfirmation_result Sample.world;
  MkdirAll_result := MkdirAll_result Sample.world;
  ReadDir_result := fun _ => ([], None);
  Stat_result := Stat_result Sample.world;
  backupStream_result := fun _ _ => None;
  restore_result := restore_result Sample.world
|}.

(** The source root holds ORDERS, then EVENTS, which exists on the target
    and has no manifest, then LOGS. *)
Definition second_entry_bad : World := {|
  prepareHelper_err := None;
  Streams_result := Streams_result Sample.world;
  StreamNames_result := StreamNames_result Sample.world;
  LatestState_result := LatestState_result Sample.world;
  askConfirmation_result := askConfirmation_result Sample.world;
  MkdirAll_result := MkdirAll_result Sample.world;
  ReadDir_result := fun _ =>
    ([DirEntry.mk "ORDERS" true; DirEntry.mk "EVENTS" true; DirEntry.mk "LOGS" true], None);
  Stat_result := fun name =>
    if String.eqb name "/backup/EVENTS/backup.json"
    then Some (errors_New "stat /backup/EVENTS/backup.json: no such file or directory")
    else None;
  backupStream_result := backupStream_result Sample.world;
  restore_result := restore_result Sample.world
|}.

(** The source root holds ORDERS and then LOGS, whose manifest is missing. *)
Definition second_entry_incomplete : World := {|
  prepareHelper_err := None;
  Streams_result := Streams_result Sample.world;
  StreamNames_result := StreamNames_result Sample.world;
  LatestState_result := LatestState_result Sample.world;
  askConfirmation_result := askConfirmation_result Sample.world;
  MkdirAll_result := MkdirAll_result Sample.world;
  ReadDir_result := ReadDir_result Sample.world;
  Stat_result := fun name =>
    if String.eqb name "/backup/LOGS/backup.json"
    then Some (errors_New "stat /backup/LOGS/backup.json: no such file or directory")
    else None;
  backupStream_result := backupStream_result Sample.world;
  restore_result := restore_result Sample.world
|}.

End Cases.

(** ** Account information: the data of [infoAction] *)

Module api.

(** [api.JetStreamAccountLimits] and [api.JetStreamTier] of the jsm library:
    the fields [renderTier] reads.  The limits are signed integers (the
    source compares them with -1 and 0 and converts them); [Memory] and
    [Store] are [uint64]. *)
Record JetStreamAccountLimits : Type := {
  MaxMemory : Z;
  MaxStore : Z;
  MaxStreams : Z;
  MaxConsumers : Z;
  MaxAckPending : Z;
  MemoryMaxStreamBytes : Z;
  StoreMaxStreamBytes : Z;
  MaxBytesRequired : bool
}.

Record JetStreamTier : Type := {
  Memory : Z;
  Store : Z;
  Streams : Z;
  Consumers : Z;
  Limits : JetStreamAccountLimits
}.

(** [api.JetStreamAccountStats]: the embedded tier and the map [Tiers],
    held as the pairs of one iteration over it, in the order of that
    iteration. *)
Record JetStreamAccountStats : Type := {
  Tier : JetStreamTier;
  Tiers : list (string * JetStreamTier)
}.

End api.

Module tls.

Definition VersionTLS10 : Z := 769.   (* 0x0301 *)
Definition VersionTLS11 : Z := 770.   (* 0x0302 *)
Definition VersionTLS12 : Z := 771.   (* 0x0303 *)
Definition VersionTLS13 : Z := 772.   (* 0x0304 *)

(** [x509.Certificate], by the text of its issuer. *)
Record Certificate : Type := { Issuer : string }.

(** [tls.ConnectionState], the fields [infoAction] reads. *)
Record ConnectionState : Type := {
  HandshakeComplete : bool;
  Version : Z;
  CipherSuite : Z;
  ServerName : string;
  VerifiedChains : list (list Certificate);
  PeerCertificates : list Certificate
}.

End tls.

Module nats.

(** What the methods of [*nats.Conn] answer to [infoAction]; the errors
    some of them return are discarded by the source. *)
Record Conn : Type := {
  GetClientID : Z;
  GetClientIP : string;
  RTT : Z;
  TLSConnectionState : tls.ConnectionState;
  HeadersSupported : bool;
  MaxPayload : Z;
  ConnectedClusterName : string;
  ConnectedUrl : string;
  ConnectedAddr : string;
  ConnectedServerId : string;
  ConnectedServerName : string
}.

End nats.

(** The operands of the lines [infoAction] prints: Go values, and the
    results of library functions kept unrendered ([v_Sprintf] is
    [fmt.Sprintf] of a format and one integer). *)
Inductive value : Type :=
| v_string (s : string)
| v_int (n : Z)
| v_bool (b : bool)
| v_IP (text : string)
| v_Duration (ns : Z)
| v_error (e : option error)
| v_Comma (n : Z)
| v_IBytes (n : Z)
| v_CipherSuiteName (id : Z)
| v_Sprintf (format : string) (n : Z).

Inductive out : Type :=
| Printf (format : string) (a : list value)
| Println (a : list value).

(** How [infoAction] ends: it returns, [fisk] ends the process, or the Go
    runtime panics (an index out of range, a nil pointer). *)
Inductive ended : Type :=
| returned (err : option error)
| exited (f : fatal)
| panicked.

(** The conversions [uint64(x)] and [int64(x)] of an integer. *)
Definition uint64 (x : Z) : Z := x mod 2 ^ 64.
Definition int64 (x : Z) : Z := (x + 2 ^ 63) mod 2 ^ 64 - 2 ^ 63.

(** What [infoAction] is given: the error of [prepareHelper], the
    connection, and the answer of [mgr.JetStreamAccountInfo] (a pointer,
    which may be nil, and an error). *)
Record InfoWorld : Type := {
  setup_err : option error;
  nc : nats.Conn;
  JetStreamAccountInfo : option api.JetStreamAccountStats * option error
}.

(** ** Account information: the code *)

Definition renderTier (name : string) (tier : api.JetStreamTier) : list out :=
  let limits := api.Limits tier in
  [ Printf "   Tier: %s\n\n" [v_string name];
    Printf "      Configuration Requirements:\n\n" [];
    Printf "         Stream Requires Max Bytes Set: %t\n" [v_bool (api.MaxBytesRequired limits)];
    (if (api.MaxAckPending limits <=? 0)%Z
     then Printf "          Consumer Maximum Ack Pending: Unlimited\n" []
     else Printf "          Consumer Maximum Ack Pending: %s\n" [v_Comma (int64 (api.MaxAckPending limits))]);
    Println [];
    Printf "      Stream Resource Usage Limits:\n\n" [];
    (if (api.MaxMemory limits =? -1)%Z
     then Printf "                    Memory: %s of Unlimited\n" [v_IBytes (api.Memory tier)]
     else Printf "                    Memory: %s of %s\n" [v_IBytes (api.Memory tier); v_IBytes (uint64 (api.MaxMemory limits))]);
    (if (api.MemoryMaxStreamBytes limits <=? 0)%Z
     then Printf "         Memory Per Stream: Unlimited\n" []
     else Printf "         Memory Per Stream: %s\n" [v_IBytes (uint64 (api.MemoryMaxStreamBytes limits))]);
    (if (api.MaxStore limits =? -1)%Z
     then Printf "                   Storage: %s of Unlimited\n" [v_IBytes (api.Store tier)]
     else Printf "                   Storage: %s of %s\n" [v_IBytes (api.Store tier); v_IBytes (uint64 (api.MaxStore limits))]);
    (if (api.StoreMaxStreamBytes limits <=? 0)%Z
     then Printf "        Storage Per Stream: Unlimited\n" []
     else Printf "        Storage Per Stream: %s\n" [v_IBytes (uint64 (api.StoreMaxStreamBytes limits))]);
    (if (api.MaxStreams limits =? -1)%Z
     then Printf "                   Streams: %s of Unlimited\n" [v_Comma (int64 (api.Streams tier))]
     else Printf "                   Streams: %s of %s\n" [v_Comma (int64 (api.Streams tier));
                         v_Comma (int64 (api.MaxStreams limits))]);
    (if (api.MaxConsumers limits =? -1)%Z
     then Printf "                 Consumers: %s of Unlimited\n" [v_Comma (int64 (api.Consumers tier))]
     else Printf "                 Consumers: %s of %s\n" [v_Comma (int64 (api.Consumers tier));
                         v_Comma (int64 (api.MaxConsumers limits))]);
    Println [] ].

(** The [switch] on [tlsc.Version]. *)
Definition tls_version (v : Z) : value :=
  (if v =? tls.VersionTLS10 then v_string "1.0"
   else if v =? tls.VersionTLS11 then v_string "1.1"
   else if v =? tls.VersionTLS12 then v_string "1.2"
   else if v =? tls.VersionTLS13 then v_string "1.3"
   else v_Sprintf "unknown (%x)" v)%Z.

(** The lines on the TLS state, and whether the function goes on: it does
    not when the index [PeerCertificates[0]] is out of range, and the lines
    are then those printed before the panic. *)
Definition tls_lines (tlsc : tls.ConnectionState) : list out * bool :=
  if tls.HandshakeComplete tlsc then
    let head :=
      [ Printf "             TLS Version: %s using %s\n" [tls_version (tls.Version tlsc); v_CipherSuiteName (tls.CipherSuite tlsc)];
        Printf "              TLS Server: %v\n" [v_string (tls.ServerName tlsc)] ] in
    if (len (tls.VerifiedChains tlsc) >? 0)%Z then
      match tls.PeerCertificates tlsc with
      | cert :: _ => (head ++ [Printf "            TLS Verified: issuer %s\n" [v_string (tls.Issuer cert)]], true)
      | [] => (head, false)
      end
    else (head ++ [Printf "            TLS Verified: no\n" []], true)
  else ([Printf "          TLS Connection: no\n" []], true).

(** The lines of the [case nil] of the [switch] on [err]. *)
Definition account_lines (payload : Z) (info : api.JetStreamAccountStats) : list out :=
  let tiered := (len (api.Tiers info) >? 0)%Z in
  [ Printf "Account Usage:\n\n" [];
    Printf "    Storage: %s\n" [v_IBytes (api.Store (api.Tier info))];
    Printf "     Memory: %s\n" [v_IBytes (api.Memory (api.Tier info))];
    Printf "    Streams: %s\n" [v_Comma (int64 (api.Streams (api.Tier info)))];
    Printf "  Consumers: %s\n" [v_Comma (int64 (api.Consumers (api.Tier info)))];
    Println [];
    Printf "Account Limits:\n\n" [];
    Printf "   Max Message Payload: %s \n\n" [v_IBytes (uint64 payload)] ]
  ++ (if tiered
      then flat_map (fun nt => renderTier (fst nt) (snd nt)) (api.Tiers info)
      else renderTier "Default" (api.Tier info)).

Definition infoAction (w : InfoWorld) : list out * ended :=
  match setup_err w with
  | Some e => ([], exited (FatalIfError e "setup failed" []))
  | None =>
      let nc := nc w in
      let id := nats.GetClientID nc in
      let ip := nats.GetClientIP nc in
      let rtt := nats.RTT nc in
      let tlsc := nats.TLSConnectionState nc in
      let connection :=
        [ Println [v_string "Connection Information:"];
          Println [];
          Printf "               Client ID: %v\n" [v_int id];
          Printf "               Client IP: %v\n" [v_IP ip];
          Printf "                     RTT: %v\n" [v_Duration rtt];
          Printf "       Headers Supported: %v\n" [v_bool (nats.HeadersSupported nc)];
          Printf "         Maximum Payload: %v\n" [v_IBytes (uint64 (nats.MaxPayload nc))] ]
        ++ (if negb (String.eqb (nats.ConnectedClusterName nc) "")
            then [Printf "       Connected Cluster: %s\n" [v_string (nats.ConnectedClusterName nc)]]
            else [])
        ++ [ Printf "           Connected URL: %v\n" [v_string (nats.ConnectedUrl nc)];
             Printf "       Connected Address: %v\n" [v_string (nats.ConnectedAddr nc)];
             Printf "     Connected Server ID: %v\n" [v_string (nats.ConnectedServerId nc)] ]
        ++ (if negb (String.eqb (nats.ConnectedServerId nc) (nats.ConnectedServerName nc))
            then [Printf "   Connected Server Name: %v\n" [v_string (nats.ConnectedServerName nc)]]
            else []) in
      match tls_lines tlsc with
      | (lines, false) => (connection ++ lines, panicked)
      | (lines, true) =>
          let '(info, err) := JetStreamAccountInfo w in
          let heading :=
            connection ++ lines
            ++ [ Println [];
                 Println [v_string "JetStream Account Information:"];
                 Println [] ] in
          match err with
          | None =>
              match info with
              | Some info =>
                  (heading ++ account_lines (nats.MaxPayload nc) info ++ [Println []],
                   returned None)
              | None => (heading, panicked)
              end
          | Some (pkg_error context_DeadlineExceeded) =>
              (heading ++ [Printf "   No response from JetStream server" []; Println []], returned None)
          | Some (pkg_error nats_ErrNoResponders) =>
              (heading ++ [Printf "   JetStream is not supported in this account" []; Println []], returned None)
          | Some _ =>
              (heading ++ [Printf "   Could not obtain account information: %s" [v_error err]; Println []], returned None)
          end
      end
  end.

(** ** Account information: vocabulary and samples *)

(** A line with this format is among the lines. *)
Definition says (format : string) (lines : list out) : Prop :=
  exists a, In (Printf format a) lines.

(** The names on the tier headings of the lines, in order. *)
Definition tier_name (o : out) : option string :=
  match o with
  | Printf format [v_string name] =>
      if String.eqb format "   Tier: %s\n\n" then Some name else None
  | _ => None
  end.

Definition tier_names (lines : list out) : list string := omap tier_name lines.

(** The index [PeerCertificates[0]] of [infoAction] is out of range. *)
Definition no_peer_certificate (tlsc : tls.ConnectionState) : Prop :=
  tls.HandshakeComplete tlsc = true /\
  tls.VerifiedChains tlsc <> [] /\
  tls.PeerCertificates tlsc = [].

(** [mgr.JetStreamAccountInfo] answered neither an account nor an error. *)
Definition no_account_no_error (w : InfoWorld) : Prop :=
  JetStreamAccountInfo w = (None, None).

Module InfoCases.

Definition plain : tls.ConnectionState := {|
  tls.HandshakeComplete := false; tls.Version := 0; tls.CipherSuite := 0;
  tls.ServerName := ""; tls.VerifiedChains := []; tls.PeerCertificates := []
|}.

Definition conn : nats.Conn := {|
  nats.GetClientID := 42;
  nats.GetClientIP := "192.0.2.7";
  nats.RTT := 1500000;
  nats.TLSConnectionState := plain;
  nats.HeadersSupported := true;
  nats.MaxPayload := 1048576;
  nats.ConnectedClusterName := "";
  nats.ConnectedUrl := "nats://localhost:4222";
  nats.ConnectedAddr := "127.0.0.1:4222";
  nats.ConnectedServerId := "NABC";
  nats.ConnectedServerName := "NABC"
|}.

Definition limits (n : Z) : api.JetStreamAccountLimits := {|
  api.MaxMemory := n; api.MaxStore := n; api.MaxStreams := n; api.MaxConsumers := n;
  api.MaxAckPending := n; api.MemoryMaxStreamBytes := n; api.StoreMaxStreamBytes := n;
  api.MaxBytesRequired := false
|}.

Definition tier (n : Z) : api.JetStreamTier := {|
  api.Memory := 1024; api.Store := 4096; api.Streams := 3; api.Consumers := 4;
  api.Limits := limits n
|}.

(** An account with the tiers R3 and R1, iterated in that order. *)
Definition tiered : InfoWorld := {|
  setup_err := None;
  nc := conn;
  JetStreamAccountInfo :=
    (Some {| api.Tier := tier 0; api.Tiers := [("R3", tier (-1)); ("R1", tier 0)] |}, None)
|}.

(** The request for the account information timed out inside a call that
    wrapped the error. *)
Definition wrapped_timeout : InfoWorld := {|
  setup_err := None;
  nc := conn;
  JetStreamAccountInfo :=
    (None, Some (fmt_Errorf "account info: %w"
                   [op_error (Some (pkg_error context_DeadlineExceeded))]))
|}.

End InfoCases.

(** ** The model on concrete inputs *)

Example Join_root_stream : filepath_Join ["/backup"; "ORDERS"] = "/backup/ORDERS".
Proof. reflexivity. Qed.

Example Join_is_cleaned : filepath_Join ["backup/"; "../x"; ""; "a//b/."] = "x/a/b".
Proof. reflexivity. Qed.

Example Join_of_nothing : filepath_Join [""; ""] = "".
Proof. reflexivity. Qed.

Example Is_sees_through_w :
  errors_Is (Some (fmt_Errorf "%s: %w" [op_string "CACHE"; op_error (Some Sample.mem)]))
    jsm_ErrMemoryStreamNotSupported = true.
Proof. reflexivity. Qed.

Example Is_stops_at_s :
  errors_Is (Some (fmt_Errorf "%s: %s" [op_string "CACHE"; op_error (Some Sample.mem)]))
    jsm_ErrMemoryStreamNotSupported = false.
Proof. reflexivity. Qed.

Example Is_of_nil : errors_Is None jsm_ErrMemoryStreamNotSupported = false.
Proof. reflexivity. Qed.

Example uint64_add_wraps : uint64_add (2 ^ 64 - 1) 1 = 0.
Proof. reflexivity. Qed.

Example int_add_wraps : int_add (2 ^ 63 - 1) 1 = - 2 ^ 63.
Proof. reflexivity. Qed.

Example warning_alone_succeeds :
  outcome Sample.memory_stream (backupAction Sample.cmd) = Returned None.
Proof. vm_compute. reflexivity. Qed.

Example warning_is_critical_when_asked :
  outcome Sample.memory_stream (backupAction Sample.strict)
  = Returned (Some (fmt_Errorf "backup failed" [])).
Proof. vm_compute. reflexivity. Qed.

Example warned_stream_is_still_followed :
  map targetDir (backups (trace Sample.memory_stream (backupAction Sample.cmd)))
  = ["/backup/ORDERS"; "/backup/CACHE"].
Proof. vm_compute. reflexivity. Qed.

Example forced_run_asks_nothing :
  List.filter is_askConfirmation (trace Sample.world (backupAction Sample.forced)) = [] /\
  map targetDir (backups (trace Sample.world (backupAction Sample.forced)))
  = ["/backup/ORDERS"; "/backup/CACHE"; "/backup/LOGS"].
Proof. split; vm_compute; reflexivity. Qed.

Example declined_run_changes_nothing :
  List.filter changes_files (trace Sample.declined (backupAction Sample.cmd)) = [] /\
  outcome Sample.declined (backupAction Sample.cmd) = Returned None.
Proof. split; vm_compute; reflexivity. Qed.

Example restore_of_sample :
  map streamCmd.backupDirectory (restores (trace Sample.world (restoreAction Sample.cmd)))
  = ["/backup/ORDERS"; "/backup/LOGS"] /\
  outcome Sample.world (restoreAction Sample.cmd) = Returned None.
Proof. split; vm_compute; reflexivity. Qed.

Example late_collision_exits :
  run Sample.late_collision [] (restoreAction Sample.cmd) =
    ([ev prepareHelper; ev mgr_StreamNames; ev (os_ReadDir "/backup");
      ev (os_Stat "/backup/ORDERS/backup.json")],
     Exited (Fatalf "stream %q exists already" [op_string "EVENTS"])).
Proof. vm_compute. reflexivity. Qed.

(** ** Running programs *)

Lemma run_bind {A B : Type} (w : World) (p : Prog A) (k : A -> Prog B) (h : list Ev) :
  run w h (bind p k) =
  match run w h p with
  | (h', Returned a) => run w h' (k a)
  | (h', Exited f) => (h', Exited f)
  end.
Proof.
  revert h. induction p as [a | f | X c k' IH]; intros h; simpl; auto.
Qed.

Lemma run_call {X B : Type} (w : World) (c : Call X) (k : X -> Prog B) (h : list Ev) :
  run w h (bind (call c) k) = run w (h ++ [ev c]) (k (respond w h c)).
Proof. reflexivity. Qed.

Lemma for_range_cons {A S : Type} (x : A) (rest : list A) (body : A -> S -> Prog S) (st : S) :
  for_range (x :: rest) body st = bind (body x st) (fun st' => for_range rest body st').
Proof. reflexivity. Qed.

Lemma run_Ret {A B : Type} (w : World) (a : A) (k : A -> Prog B) (h : list Ev) :
  run w h (bind (Ret a) k) = run w h (k a).
Proof. reflexivity. Qed.

(** A run only extends the trace it starts from. *)
Lemma run_extends {R : Type} (w : World) (p : Prog R) (h : list Ev) :
  exists t, fst (run w h p) = h ++ t.
Proof.
  revert h. induction p as [a | f | X c k IH]; intros h; simpl.
  - exists []. now rewrite app_nil_r.
  - exists []. now rewrite app_nil_r.
  - destruct (IH (respond w h c) (h ++ [ev c])) as [t Ht].
    exists (ev c :: t). rewrite Ht, <- app_assoc. reflexivity.
Qed.

Lemma backups_app (h t : list Ev) : backups (h ++ t) = backups h ++ backups t.
Proof. apply omap_app. Qed.

Lemma restores_app (h t : list Ev) : restores (h ++ t) = restores h ++ restores t.
Proof. apply omap_app. Qed.

(** ** The loops of [backupAction] *)

Lemma uint64_add_acc (a b t : Z) :
  a = (a mod 2 ^ 64)%Z -> (uint64_add a b + t) mod 2 ^ 64 = (a + (b + t)) mod 2 ^ 64.
Proof.
  intros _. unfold uint64_add. rewrite Zplus_mod_idemp_l. f_equal. lia.
Qed.

Lemma int_add_acc (a b t : Z) :
  (int_add a b + t + 2 ^ 63) mod 2 ^ 64 = (a + (b + t) + 2 ^ 63) mod 2 ^ 64.
Proof.
  unfold int_add.
  replace ((a + b + 2 ^ 63) mod 2 ^ 64 - 2 ^ 63 + t + 2 ^ 63)
    with ((a + b + 2 ^ 63) mod 2 ^ 64 + t) by lia.
  rewrite Zplus_mod_idemp_l. f_equal. lia.
Qed.

Lemma run_add_LatestState (w : World) (streams : list Stream.t) :
  forall (h : list Ev) (size consumers : Z),
    size = size mod 2 ^ 64 ->
    consumers = (consumers + 2 ^ 63) mod 2 ^ 64 - 2 ^ 63 ->
    run w h (for_range streams add_LatestState (size, consumers)) =
      (h ++ map (fun s => ev (LatestState s)) streams,
       Returned ((size + total_bytes w streams) mod 2 ^ 64,
                 (consumers + total_consumers w streams + 2 ^ 63) mod 2 ^ 64 - 2 ^ 63)).
Proof.
  induction streams as [| s rest IH]; intros h size consumers Hs Hc.
  - simpl. unfold total_bytes, total_consumers. simpl.
    rewrite app_nil_r, !Z.add_0_r, <- Hs, <- Hc. reflexivity.
  - rewrite for_range_cons, run_bind. unfold add_LatestState at 1.
    rewrite run_call. simpl respond.
    destruct (LatestState_result w s) as [state e] eqn:E. simpl run.
    cbv beta iota. rewrite IH.
    + rewrite <- app_assoc. simpl. f_equal. f_equal.
      unfold total_bytes, total_consumers. simpl. rewrite E. simpl.
      f_equal.
      * apply uint64_add_acc, Hs.
      * f_equal. apply int_add_acc.
    + unfold uint64_add. now rewrite Zmod_mod.
    + unfold int_add.
      replace ((size, consumers).2 + StreamState.Consumers state + 2 ^ 63) with
        (consumers + StreamState.Consumers state + 2 ^ 63) by reflexivity.
      replace ((consumers + StreamState.Consumers state + 2 ^ 63) mod 2 ^ 64 - 2 ^ 63 + 2 ^ 63)
        with ((consumers + StreamState.Consumers state + 2 ^ 63) mod 2 ^ 64) by lia.
      now rewrite Zmod_mod.
Qed.

Lemma omap_cons_app {A B : Type} (f : A -> option B) (x : A) (l : list A) :
  omap f (x :: l) = omap f [x] ++ omap f l.
Proof. apply (omap_app f [x] l). Qed.

Lemma backups_stream_events (c : actCmd) (s : Stream.t) (err : option error) :
  backups (stream_events c s err) = [primitive_call c s].
Proof.
  unfold stream_events. destruct (classify err); reflexivity.
Qed.

Lemma run_backup_one (w : World) (c : actCmd) (s : Stream.t) (h : list Ev)
    (acc : list error * list error) :
  let err := backupStream_result w (backups h) (primitive_call c s) in
  run w h (backup_one c s acc) =
    (h ++ stream_events c s err,
     Returned (fst acc ++ omap failure_record [(s, err)],
               snd acc ++ omap warning_record [(s, err)])).
Proof.
  intros err. unfold backup_one. rewrite run_call. simpl respond.
  change (backupStream_result w (backups h) _) with err.
  unfold stream_events, failure_record, warning_record.
  destruct err as [e |]; simpl.
  - destruct (error_Is e jsm_ErrMemoryStreamNotSupported) eqn:E; simpl.
    + rewrite <- !app_assoc, app_nil_r. reflexivity.
    + rewrite <- !app_assoc, app_nil_r. reflexivity.
  - rewrite <- !app_assoc, !app_nil_r. destruct acc. reflexivity.
Qed.

Lemma run_backup_loop (w : World) (c : actCmd) (streams : list Stream.t) :
  forall (h : list Ev) (acc : list error * list error),
    run w h (for_range streams (backup_one c) acc) =
      (h ++ phase_events w c (backups h) streams,
       Returned (fst acc ++ recorded_failures w c (backups h) streams,
                 snd acc ++ recorded_warnings w c (backups h) streams)).
Proof.
  induction streams as [| s rest IH]; intros h acc.
  - simpl. unfold recorded_failures, recorded_warnings. simpl.
    rewrite !app_nil_r. destruct acc. reflexivity.
  - rewrite for_range_cons, run_bind, run_backup_one. cbv beta iota zeta.
    rewrite IH, backups_app, backups_stream_events.
    unfold recorded_failures, recorded_warnings.
    cbn [phase_events primitive_answers combine fst snd].
    rewrite <- !app_assoc, <- !omap_cons_app.
    reflexivity.
Qed.

Lemma run_print_each (w : World) (l : list error) :
  forall h : list Ev,
    run w h (for_range l print_each tt) =
      (h ++ map (fun e => ev (fmt_Printf "  %s\n" [op_error (Some e)])) l, Returned tt).
Proof.
  induction l as [| e rest IH]; intros h.
  - simpl. now rewrite app_nil_r.
  - rewrite for_range_cons, run_bind. unfold print_each at 1. simpl run.
    cbv beta iota. rewrite IH, <- app_assoc. reflexivity.
Qed.

Lemma len_pos_cons {A : Type} (x : A) (l : list A) : (len (x :: l) >? 0) = true.
Proof. unfold len. simpl length. apply Z.gtb_lt. lia. Qed.

Lemma len_nil_gtb {A : Type} : (len (@nil A) >? 0) = false.
Proof. reflexivity. Qed.

Lemma run_report (w : World) (title : string) (l : list error) (h : list Ev) :
  run w h
    (if len l >? 0
     then (call (fmt_Printf title []);; for_range l print_each tt;; call fmt_Println)
     else Ret tt)
  = (h ++ report_events title l, Returned tt).
Proof.
  destruct l as [| e rest].
  - simpl. now rewrite app_nil_r.
  - rewrite len_pos_cons, run_call, run_bind, run_print_each. simpl.
    rewrite <- !app_assoc. reflexivity.
Qed.

Lemma backups_LatestState (streams : list Stream.t) :
  backups (map (fun s => ev (LatestState s)) streams) = [].
Proof. induction streams; simpl; auto. Qed.

Lemma backups_preamble (w : World) (c : actCmd) : backups (preamble_events w c) = [].
Proof.
  unfold preamble_events. rewrite !backups_app, backups_LatestState. reflexivity.
Qed.

Lemma backups_gate (c : actCmd) : backups (gate_events c) = [].
Proof. unfold gate_events. destruct (force c); reflexivity. Qed.

Lemma len_nonempty {A : Type} (l : list A) : l <> [] -> (len l =? 0)%Z = false.
Proof.
  intros H. destruct l; [contradiction |]. unfold len. simpl length.
  apply Z.eqb_neq. lia.
Qed.

(** Runs the command up to the confirmation gate, given [reaches_gate]. *)
Ltac to_gate w c Hprep Herr Hne HS :=
  unfold backupAction; rewrite run_call; simpl respond; rewrite Hprep;
  simpl fisk_FatalIfError; rewrite run_Ret, run_call; simpl respond;
  destruct (Streams_result w) as [streams err0] eqn:HS; simpl in Herr, Hne;
  subst err0; cbv beta iota; simpl not_nil; cbv iota; rewrite (len_nonempty _ Hne);
  rewrite run_bind, run_add_LatestState by reflexivity;
  cbv beta iota; rewrite !run_call; simpl respond; rewrite !Z.add_0_l;
  match goal with
  | |- context [run _ ?h _] =>
      replace h with (preamble_events w c)
        by (unfold preamble_events, shown_size, shown_consumers, summary_events;
            rewrite HS; cbn [fst]; rewrite <- ?app_assoc; reflexivity)
  end.

(** The run that reaches the per-stream phase. *)
Lemma run_backupAction_phase (w : World) (c : actCmd) :
  reaches_phase w c ->
  run w [] (backupAction c) = (phase_trace w c, Returned (phase_result w c)).
Proof.
  intros [[Hprep [Herr Hne]] [Hgate Hmk]].
  unfold phase_trace, phase_result, gate_events.
  to_gate w c Hprep Herr Hne HS.
  assert (Hproceed :
    run w (preamble_events w c)
      (if negb (force c)
       then
         let* (ok, err) := call (askConfirmation "Perform backup" false) in
         if not_nil err then Ret (inl err)
         else if negb ok then Ret (inl None) else Ret (inr tt)
       else Ret (inr tt))
    = (preamble_events w c
         ++ (if force c then [] else [ev (askConfirmation "Perform backup" false)]),
       Returned (inr tt))).
  { destruct Hgate as [F | A].
    - rewrite F. simpl. now rewrite app_nil_r.
    - destruct (force c); simpl; [now rewrite app_nil_r |].
      rewrite A. reflexivity. }
  rewrite run_bind, Hproceed. cbv beta iota.
  rewrite run_call. simpl respond. rewrite Hmk. simpl not_nil. cbv iota.
  rewrite run_bind, run_backup_loop. cbv beta iota.
  rewrite !backups_app, backups_preamble.
  replace (backups (if force c then [] else [ev (askConfirmation "Perform backup" false)]))
    with (@nil BackupArgs) by (destruct (force c); reflexivity).
  change (backups [ev (os_MkdirAll (backupDirectory c) 448)]) with (@nil BackupArgs).
  cbn [app fst snd].
  rewrite run_bind, run_report. cbv beta iota.
  rewrite run_bind, run_report. cbv beta iota.
  rewrite <- !app_assoc.
  destruct (recorded_failures w c [] streams) as [| e errs];
    destruct (recorded_warnings w c [] streams) as [| e' warns];
    rewrite ?len_pos_cons, ?len_nil_gtb; cbn [orb andb]; try reflexivity.
  destruct (failOnWarn c); reflexivity.
Qed.

(** ** The final result of a backup *)

Lemma omap_failure_nonempty (l : list (Stream.t * option error)) :
  omap failure_record l <> [] <-> has_Failure (map (fun a => classify (snd a)) l).
Proof.
  unfold has_Failure. induction l as [| a l IH]; simpl.
  - split; [congruence | intros [e []]].
  - unfold failure_record at 1.
    destruct (classify (snd a)) eqn:E; simpl; rewrite ?IH.
    + split; intros [e H]; exists e; [now right | destruct H; [discriminate | auto]].
    + split; intros [e H]; exists e; [now right | destruct H; [discriminate | auto]].
    + split; [intros _; exists reason; now left | discriminate].
Qed.

Lemma omap_warning_nonempty (l : list (Stream.t * option error)) :
  omap warning_record l <> [] <-> has_Warning (map (fun a => classify (snd a)) l).
Proof.
  unfold has_Warning. induction l as [| a l IH]; simpl.
  - split; [congruence | intros [e []]].
  - unfold warning_record at 1.
    destruct (classify (snd a)) eqn:E; simpl; rewrite ?IH.
    + split; intros [e H]; exists e; [now right | destruct H; [discriminate | auto]].
    + split; [intros _; exists reason; now left | discriminate].
    + split; intros [e H]; exists e; [now right | destruct H; [discriminate | auto]].
Qed.

Lemma classify_answers (w : World) (c : actCmd) (streams : list Stream.t) :
  forall prev,
    map (fun a => classify (snd a)) (combine streams (primitive_answers w c prev streams))
    = map classify (primitive_answers w c prev streams).
Proof.
  induction streams as [| s rest IH]; intros prev; simpl; [reflexivity |].
  now rewrite IH.
Qed.

Lemma recorded_failures_nonempty (w : World) (c : actCmd) :
  recorded_failures w c [] (fst (Streams_result w)) <> [] <-> has_Failure (stream_outcomes w c).
Proof.
  unfold recorded_failures, stream_outcomes.
  now rewrite omap_failure_nonempty, classify_answers.
Qed.

Lemma recorded_warnings_nonempty (w : World) (c : actCmd) :
  recorded_warnings w c [] (fst (Streams_result w)) <> [] <-> has_Warning (stream_outcomes w c).
Proof.
  unfold recorded_warnings, stream_outcomes.
  now rewrite omap_warning_nonempty, classify_answers.
Qed.

Lemma phase_result_fails (w : World) (c : actCmd) :
  run_fails c (stream_outcomes w c) ->
  phase_result w c = Some (fmt_Errorf "backup failed" []).
Proof.
  unfold run_fails, phase_result.
  rewrite <- recorded_failures_nonempty, <- recorded_warnings_nonempty.
  intros [F | [W Hw]].
  - destruct (recorded_failures w c [] _); [contradiction | reflexivity].
  - destruct (recorded_failures w c [] _); [| reflexivity].
    destruct (recorded_warnings w c [] _); [contradiction |]. now rewrite Hw.
Qed.

Lemma phase_result_succeeds (w : World) (c : actCmd) :
  ~ run_fails c (stream_outcomes w c) -> phase_result w c = None.
Proof.
  unfold run_fails, phase_result.
  rewrite <- recorded_failures_nonempty, <- recorded_warnings_nonempty.
  intros H.
  destruct (recorded_failures w c [] _); [| exfalso; apply H; left; discriminate].
  destruct (recorded_warnings w c [] _); [reflexivity |].
  destruct (failOnWarn c); [| reflexivity].
  exfalso. apply H. right. split; [discriminate | reflexivity].
Qed.

Lemma run_fails_dec (w : World) (c : actCmd) :
  run_fails c (stream_outcomes w c) \/ ~ run_fails c (stream_outcomes w c).
Proof.
  unfold run_fails.
  rewrite <- recorded_failures_nonempty, <- recorded_warnings_nonempty.
  destruct (recorded_failures w c [] _); [| left; left; discriminate].
  destruct (recorded_warnings w c [] _).
  - right. intros [H | [H _]]; now apply H.
  - destruct (failOnWarn c).
    + left. right. split; [discriminate | reflexivity].
    + right. intros [H | [_ H]]; [now apply H | discriminate].
Qed.

(** C1.  A backup run that reaches the per-stream phase returns an error if
    and only if some stream produced a Failure, or some stream produced a
    Warning and [failOnWarn] is set; in every other case it returns nil,
    also when streams were skipped with a Warning. *)
Theorem backup_final_result (w : World) (c : actCmd) :
  reaches_phase w c ->
  (run_fails c (stream_outcomes w c) <->
     exists e, outcome w (backupAction c) = Returned (Some e)) /\
  (~ run_fails c (stream_outcomes w c) <->
     outcome w (backupAction c) = Returned None).
Proof.
  intros H. unfold outcome. rewrite (run_backupAction_phase w c H). simpl snd.
  destruct (run_fails_dec w c) as [F | S].
  - rewrite (phase_result_fails w c F). split; split.
    + intros _. eexists. reflexivity.
    + intros _. exact F.
    + intros N. contradiction.
    + discriminate.
  - rewrite (phase_result_succeeds w c S). split; split.
    + intros F. contradiction.
    + intros [e He]. discriminate.
    + reflexivity.
    + intros _. exact S.
Qed.

Lemma sample_reaches_phase : reaches_phase Sample.world Sample.cmd.
Proof.
  unfold reaches_phase, reaches_gate. simpl.
  repeat split; try reflexivity; try discriminate. right. reflexivity.
Defined.

Lemma backup_final_result_witness :
  (run_fails Sample.cmd (stream_outcomes Sample.world Sample.cmd) <->
     exists e, outcome Sample.world (backupAction Sample.cmd) = Returned (Some e)) /\
  (~ run_fails Sample.cmd (stream_outcomes Sample.world Sample.cmd) <->
     outcome Sample.world (backupAction Sample.cmd) = Returned None).
Proof.
  exact (backup_final_result Sample.world Sample.cmd sample_reaches_phase).
Defined.

(** ** The per-stream phase *)

Lemma backups_phase_events (w : World) (c : actCmd) (streams : list Stream.t) :
  forall prev, backups (phase_events w c prev streams) = map (primitive_call c) streams.
Proof.
  induction streams as [| s rest IH]; intros prev; cbn [phase_events map]; [reflexivity |].
  rewrite backups_app, backups_stream_events, IH. reflexivity.
Qed.

Lemma backups_report_events (title : string) (l : list error) :
  backups (report_events title l) = [].
Proof.
  destruct l as [| e l]; [reflexivity |].
  unfold report_events. generalize (e :: l). intros l'.
  change (backups (map (fun e => ev (fmt_Printf "  %s\n" [op_error (Some e)])) l'
                   ++ [ev fmt_Println]) = []).
  rewrite backups_app. induction l'; simpl; auto.
Qed.

Lemma backups_phase_trace (w : World) (c : actCmd) :
  backups (phase_trace w c) = map (primitive_call c) (fst (Streams_result w)).
Proof.
  unfold phase_trace.
  rewrite !backups_app, backups_preamble, backups_gate, backups_phase_events,
    !backups_report_events.
  simpl. now rewrite app_nil_r.
Qed.

(** C3.  In a run that reaches the per-stream phase every stream is handed
    to the backup primitive, in order, whatever the earlier streams
    answered, and the command returns (it does not exit): no per-stream
    error aborts the batch.  The answer of each stream is classified: the
    unsupported-storage-class error is printed and recorded as a warning,
    any other error is printed and recorded as a failure, no error records
    nothing; the two records are reported at the end. *)
Theorem backup_classifies_every_stream (w : World) (c : actCmd) :
  reaches_phase w c ->
  let streams := fst (Streams_result w) in
  let answers := combine streams (primitive_answers w c [] streams) in
  backups (trace w (backupAction c)) = map (primitive_call c) streams /\
  (exists r, outcome w (backupAction c) = Returned r) /\
  trace w (backupAction c) =
    preamble_events w c ++ gate_events c ++ [ev (os_MkdirAll (backupDirectory c) 448)]
    ++ phase_events w c [] streams
    ++ report_events "Backup Warnings: \n" (omap warning_record answers)
    ++ report_events "Backup failures: \n" (omap failure_record answers).
Proof.
  intros H streams answers. unfold trace, outcome.
  rewrite (run_backupAction_phase w c H). simpl fst. simpl snd.
  split; [apply backups_phase_trace |].
  split; [eexists; reflexivity | reflexivity].
Qed.

Lemma backup_classifies_every_stream_witness :
  backups (trace Sample.world (backupAction Sample.cmd))
  = map (primitive_call Sample.cmd) (fst (Streams_result Sample.world)) /\
  exists r, outcome Sample.world (backupAction Sample.cmd) = Returned r.
Proof.
  destruct (backup_classifies_every_stream Sample.world Sample.cmd sample_reaches_phase)
    as [Hcalls [Hret _]].
  split; [exact Hcalls | exact Hret].
Defined.




(** C10.  Whenever a run that reaches the per-stream phase fails, the error
    it returns is the one value [fmt.Errorf("backup failed")]: it has no
    operand and wraps nothing, whichever streams failed or warned.  The
    records of the streams are printed in the report, one line each. *)
Theorem backup_failed_is_constant (w : World) (c : actCmd) :
  reaches_phase w c ->
  run_fails c (stream_outcomes w c) ->
  outcome w (backupAction c) = Returned (Some (fmt_Errorf "backup failed" [])) /\
  errors_Is (Some (fmt_Errorf "backup failed" [])) jsm_ErrMemoryStreamNotSupported = false /\
  forall e,
    In e (recorded_warnings w c [] (fst (Streams_result w))
          ++ recorded_failures w c [] (fst (Streams_result w))) ->
    In (ev (fmt_Printf "  %s\n" [op_error (Some e)])) (trace w (backupAction c)).
Proof.
  intros H F. unfold outcome, trace. rewrite (run_backupAction_phase w c H).
  simpl fst. simpl snd. rewrite (phase_result_fails w c F).
  split; [reflexivity |]. split; [reflexivity |].
  intros e He. unfold phase_trace.
  assert (Hrep : forall title l, In e l ->
            In (ev (fmt_Printf "  %s\n" [op_error (Some e)])) (report_events title l)).
  { intros title l Hl. destruct l as [| x l]; [destruct Hl |].
    unfold report_events. right. apply in_or_app. left.
    apply (in_map (fun e => ev (fmt_Printf "  %s\n" [op_error (Some e)]))). exact Hl. }
  apply in_app_or in He.
  do 4 (apply in_or_app; right).
  apply in_or_app. destruct He as [Hw | Hf]; [left | right]; apply Hrep; assumption.
Qed.

Lemma sample_run_fails : run_fails Sample.cmd (stream_outcomes Sample.world Sample.cmd).
Proof.
  left. exists (errors_New "snapshot failed"). vm_compute. right. right. left. reflexivity.
Defined.

Lemma backup_failed_is_constant_witness :
  outcome Sample.world (backupAction Sample.cmd)
  = Returned (Some (fmt_Errorf "backup failed" [])).
Proof.
  exact (proj1 (backup_failed_is_constant Sample.world Sample.cmd
                  sample_reaches_phase sample_run_fails)).
Defined.

(** ** Runs that stop before the per-stream phase *)

(** C6.  With zero streams on the account the command makes two calls, for
    its connection and for the list of streams, and returns the error
    "no streams found"; no directory is created and no backup is started. *)
Theorem backup_no_streams (w : World) (c : actCmd) :
  prepareHelper_err w = None ->
  Streams_result w = ([], None) ->
  run w [] (backupAction c) =
    ([ev prepareHelper; ev mgr_Streams],
     Returned (Some (fmt_Errorf "no streams found" []))) /\
  List.filter changes_files (trace w (backupAction c)) = [].
Proof.
  intros Hprep HS.
  assert (Hrun : run w [] (backupAction c) =
            ([ev prepareHelper; ev mgr_Streams],
             Returned (Some (fmt_Errorf "no streams found" [])))).
  { unfold backupAction. rewrite run_call. simpl respond. rewrite Hprep.
    simpl fisk_FatalIfError. rewrite run_Ret, run_call. simpl respond.
    rewrite HS. reflexivity. }
  split; [exact Hrun |]. unfold trace. rewrite Hrun. reflexivity.
Qed.

Lemma backup_no_streams_witness :
  run Sample.empty_account [] (backupAction Sample.cmd) =
    ([ev prepareHelper; ev mgr_Streams],
     Returned (Some (fmt_Errorf "no streams found" []))).
Proof.
  exact (proj1 (backup_no_streams Sample.empty_account Sample.cmd eq_refl eq_refl)).
Defined.

Lemma run_call_bind {X A B : Type} (w : World) (c : Call X) (f : X -> Prog A)
    (g : A -> Prog B) (h : list Ev) :
  run w h (bind (bind (call c) f) g) = run w (h ++ [ev c]) (bind (f (respond w h c)) g).
Proof. reflexivity. Qed.

Lemma filter_LatestState (p : Ev -> bool) (streams : list Stream.t) :
  (forall s, p (ev (LatestState s)) = false) ->
  List.filter p (map (fun s => ev (LatestState s)) streams) = [].
Proof.
  intros Hp. induction streams as [| s rest IH]; simpl; [reflexivity |].
  now rewrite Hp, IH.
Qed.

Lemma preamble_changes_nothing (w : World) (c : actCmd) :
  List.filter changes_files (preamble_events w c) = [].
Proof.
  unfold preamble_events. rewrite !List.filter_app, filter_LatestState by reflexivity.
  reflexivity.
Qed.

Lemma preamble_asks_nothing (w : World) (c : actCmd) :
  List.filter is_askConfirmation (preamble_events w c) = [].
Proof.
  unfold preamble_events. rewrite !List.filter_app, filter_LatestState by reflexivity.
  reflexivity.
Qed.

(** A negative answer, or no answer, ends the run at the gate. *)
Lemma run_backupAction_stops_at_gate (w : World) (c : actCmd) (ok : bool)
    (err : option error) :
  reaches_gate w ->
  force c = false ->
  askConfirmation_result w "Perform backup" false = (ok, err) ->
  not_nil err = true \/ ok = false ->
  run w [] (backupAction c) =
    (preamble_events w c ++ [ev (askConfirmation "Perform backup" false)], Returned err).
Proof.
  intros [Hprep [Herr Hne]] F A Hstop.
  to_gate w c Hprep Herr Hne HS.
  rewrite F. simpl negb. cbv iota. rewrite run_call_bind. simpl respond. rewrite A.
  destruct err as [e |]; simpl; [reflexivity |].
  destruct Hstop as [H | H]; [discriminate |]. rewrite H. reflexivity.
Qed.

Lemma run_backupAction_MkdirAll_fails (w : World) (c : actCmd) (e : error) :
  reaches_gate w ->
  force c = true \/ askConfirmation_result w "Perform backup" false = (true, None) ->
  MkdirAll_result w (backupDirectory c) 448 = Some e ->
  run w [] (backupAction c) =
    (preamble_events w c ++ gate_events c ++ [ev (os_MkdirAll (backupDirectory c) 448)],
     Returned (Some e)).
Proof.
  intros [Hprep [Herr Hne]] Hgate Hmk.
  to_gate w c Hprep Herr Hne HS. unfold gate_events.
  destruct (force c) eqn:F; simpl negb; cbv iota.
  - rewrite run_Ret, run_call. simpl respond. rewrite Hmk. reflexivity.
  - destruct Hgate as [H | A]; [discriminate |].
    rewrite run_call_bind. simpl respond. rewrite A. simpl.
    rewrite Hmk. simpl. rewrite <- app_assoc. reflexivity.
Qed.

Lemma phase_events_ask_nothing (w : World) (c : actCmd) (streams : list Stream.t) :
  forall prev, List.filter is_askConfirmation (phase_events w c prev streams) = [].
Proof.
  induction streams as [| s rest IH]; intros prev; cbn [phase_events]; [reflexivity |].
  rewrite List.filter_app, IH, app_nil_r. unfold stream_events.
  destruct (classify _); reflexivity.
Qed.

Lemma report_events_ask_nothing (title : string) (l : list error) :
  List.filter is_askConfirmation (report_events title l) = [].
Proof.
  destruct l as [| e l]; [reflexivity |].
  unfold report_events. generalize (e :: l). intros l'.
  change (List.filter is_askConfirmation
            (map (fun e => ev (fmt_Printf "  %s\n" [op_error (Some e)])) l'
             ++ [ev fmt_Println]) = []).
  rewrite List.filter_app. induction l'; simpl; auto.
Qed.

(** C7.  Nothing before the gate changes the file system.  Without [force]
    the command asks for confirmation right after the summary; on a
    negative answer it returns nil having made no further call (the root
    directory is not created); when the decision cannot be obtained it
    returns that error, again with no further call.  With [force] the
    command never asks and goes on to create the root directory. *)
Theorem confirmation_gate (w : World) (c : actCmd) :
  reaches_gate w ->
  let ask := ev (askConfirmation "Perform backup" false) in
  List.filter changes_files (preamble_events w c) = [] /\
  (force c = false ->
     (exists post, trace w (backupAction c) = preamble_events w c ++ ask :: post) /\
     (askConfirmation_result w "Perform backup" false = (false, None) ->
        run w [] (backupAction c) = (preamble_events w c ++ [ask], Returned None)) /\
     (forall ok e,
        askConfirmation_result w "Perform backup" false = (ok, Some e) ->
        run w [] (backupAction c) = (preamble_events w c ++ [ask], Returned (Some e)))) /\
  (force c = true ->
     List.filter is_askConfirmation (trace w (backupAction c)) = [] /\
     exists post,
       trace w (backupAction c) =
         preamble_events w c ++ ev (os_MkdirAll (backupDirectory c) 448) :: post).
Proof.
  intros G ask. split; [apply preamble_changes_nothing |]. split.
  - intros F. split; [| split].
    + destruct G as [Hprep [Herr Hne]]. unfold trace.
      to_gate w c Hprep Herr Hne HS.
      rewrite F. simpl negb. cbv iota. rewrite run_call_bind.
      match goal with
      | |- context [run w ?h ?p] => destruct (run_extends w p h) as [t Ht]
      end.
      exists t. rewrite Ht, <- app_assoc. reflexivity.
    + intros A. apply (run_backupAction_stops_at_gate w c false None G F A). now right.
    + intros ok e A. apply (run_backupAction_stops_at_gate w c ok (Some e) G F A). now left.
  - intros F.
    assert (Hg : gate_events c = []) by (unfold gate_events; now rewrite F).
    destruct (MkdirAll_result w (backupDirectory c) 448) as [e |] eqn:Hmk.
    + unfold trace.
      rewrite (run_backupAction_MkdirAll_fails w c e G (or_introl F) Hmk), Hg.
      cbn [fst]. split.
      * rewrite List.filter_app, preamble_asks_nothing. reflexivity.
      * exists []. reflexivity.
    + assert (P : reaches_phase w c) by (split; [exact G | split; [now left | exact Hmk]]).
      unfold trace. rewrite (run_backupAction_phase w c P). cbn [fst].
      unfold phase_trace. rewrite Hg. split.
      * rewrite !List.filter_app, preamble_asks_nothing, phase_events_ask_nothing,
          !report_events_ask_nothing. reflexivity.
      * eexists. reflexivity.
Qed.

Lemma sample_declined_reaches_gate : reaches_gate Sample.declined.
Proof.
  unfold reaches_gate. simpl. repeat split; try reflexivity; discriminate.
Defined.

Lemma confirmation_gate_witness :
  run Sample.declined [] (backupAction Sample.cmd) =
    (preamble_events Sample.declined Sample.cmd
       ++ [ev (askConfirmation "Perform backup" false)],
     Returned None).
Proof.
  destruct (confirmation_gate Sample.declined Sample.cmd sample_declined_reaches_gate)
    as [_ [Hask _]].
  destruct (Hask eq_refl) as [_ [Hno _]].
  exact (Hno eq_refl).
Defined.

(** ** The totals of the summary *)

Lemma total_bytes_read (w : World) (streams : list Stream.t) :
  zero_state_on_error w ->
  total_bytes w streams = sum_of (map (bytes_read w) streams).
Proof.
  intros Z. unfold total_bytes, sum_of.
  induction streams as [| s rest IH]; simpl; [reflexivity |].
  rewrite IH. f_equal. unfold bytes_read.
  destruct (snd (LatestState_result w s)) eqn:E; [| reflexivity].
  rewrite (Z s); [reflexivity |]. rewrite E. discriminate.
Qed.

Lemma total_consumers_read (w : World) (streams : list Stream.t) :
  zero_state_on_error w ->
  total_consumers w streams = sum_of (map (consumers_read w) streams).
Proof.
  intros Z. unfold total_consumers, sum_of.
  induction streams as [| s rest IH]; simpl; [reflexivity |].
  rewrite IH. f_equal. unfold consumers_read.
  destruct (snd (LatestState_result w s)) eqn:E; [| reflexivity].
  rewrite (Z s); [reflexivity |]. rewrite E. discriminate.
Qed.

Lemma trace_backupAction_preamble (w : World) (c : actCmd) :
  reaches_gate w ->
  exists rest, trace w (backupAction c) = preamble_events w c ++ rest.
Proof.
  intros [Hprep [Herr Hne]]. unfold trace.
  to_gate w c Hprep Herr Hne HS.
  match goal with
  | |- context [run w ?h ?p] => destruct (run_extends w p h) as [t Ht]
  end.
  exists t. exact Ht.
Qed.

(** C9.  Once the streams are listed, the state of every stream is asked
    for, in order, whether or not an earlier read failed, and the summary
    comes next.  The size it shows is the [uint64] sum of the byte counts
    and the count it shows is the [int] sum of the consumer counts, a
    failed read counting for zero in both; they are the exact sums when
    these are in range.  [LatestState] is taken to answer the zero state
    together with an error, as the jsm library does. *)
Theorem backup_summary_totals (w : World) (c : actCmd) :
  reaches_gate w ->
  zero_state_on_error w ->
  let streams := fst (Streams_result w) in
  let bytes := sum_of (map (bytes_read w) streams) in
  let consumers := sum_of (map (consumers_read w) streams) in
  exists size count rest,
    trace w (backupAction c) =
      [ev prepareHelper; ev mgr_Streams]
      ++ map (fun s => ev (LatestState s)) streams
      ++ summary_events c (len streams) size count
      ++ rest /\
    size = bytes mod 2 ^ 64 /\
    count = (consumers + 2 ^ 63) mod 2 ^ 64 - 2 ^ 63 /\
    (0 <= bytes < 2 ^ 64 -> size = bytes) /\
    (- 2 ^ 63 <= consumers < 2 ^ 63 -> count = consumers).
Proof.
  intros G Z streams bytes consumers.
  destruct (trace_backupAction_preamble w c G) as [rest Hrest].
  exists (shown_size w), (shown_consumers w), rest.
  split; [| split; [| split; [| split]]].
  - rewrite Hrest. unfold preamble_events. rewrite <- !app_assoc. reflexivity.
  - unfold shown_size. now rewrite (total_bytes_read w _ Z).
  - unfold shown_consumers. now rewrite (total_consumers_read w _ Z).
  - intros Hb. unfold shown_size. rewrite (total_bytes_read w _ Z).
    apply Z.mod_small. exact Hb.
  - intros Hc. unfold shown_consumers. rewrite (total_consumers_read w _ Z).
    fold streams. fold consumers. rewrite Z.mod_small; lia.
Qed.

Lemma sample_reaches_gate : reaches_gate Sample.world.
Proof. exact (proj1 sample_reaches_phase). Defined.

Lemma sample_zero_state_on_error : zero_state_on_error Sample.world.
Proof.
  intros s. simpl. destruct (String.eqb (Stream.Name s) "CACHE"); simpl.
  - reflexivity.
  - intros H. exfalso. apply H. reflexivity.
Defined.

Lemma backup_summary_totals_witness :
  exists size count rest,
    trace Sample.world (backupAction Sample.cmd) =
      [ev prepareHelper; ev mgr_Streams]
      ++ map (fun s => ev (LatestState s)) (fst (Streams_result Sample.world))
      ++ summary_events Sample.cmd 3 size count
      ++ rest /\
    size = 8192 /\ count = 4.
Proof.
  destruct (backup_summary_totals Sample.world Sample.cmd
              sample_reaches_gate sample_zero_state_on_error)
    as [size [count [rest [Htrace [Hsize [Hcount _]]]]]].
  exists size, count, rest.
  split; [exact Htrace | split; [exact Hsize | exact Hcount]].
Defined.

(** ** The loops of [restoreAction] *)

Lemma existingStreams_lookup (streams : list string) (k : string) :
  forall m : gmap string unit,
    is_Some (fold_left (fun m n => <[n := tt]> m) streams m !! k)
    <-> In k streams \/ is_Some (m !! k).
Proof.
  induction streams as [| n rest IH]; intros m; simpl.
  - split; [auto | intros [[] | H]; exact H].
  - rewrite IH. rewrite lookup_insert_is_Some. split.
    + intros [H | [H | [_ H]]]; auto.
    + intros [[H | H] | H]; auto.
      destruct (decide (n = k)) as [E | N]; [right; left; exact E | right; right; auto].
Qed.

Lemma existingStreams_collides (w : World) (d : DirEntry.t) :
  is_Some (fold_left (fun m n => <[n := tt]> m) (existing w) (∅ : gmap string unit)
             !! DirEntry.Name d)
  <-> collides w d.
Proof.
  rewrite existingStreams_lookup. unfold collides. split; [| auto].
  intros [H | H]; [exact H |]. rewrite lookup_empty in H. destruct H as [x H]. discriminate.
Qed.

(** One entry of the validation loop, where the enclosing [err] is nil as
    it is after [os.ReadDir] succeeded. *)
Lemma run_validate_entry (w : World) (c : actCmd) (ex : gmap string unit)
    (d : DirEntry.t) (h : list Ev) :
  run w h (validate_entry c ex None d tt) =
    if bool_decide (is_Some (ex !! DirEntry.Name d))
    then (h, Exited (Fatalf "stream %q exists already" [op_string (DirEntry.Name d)]))
    else match Stat_result w (manifest_path c d) with
         | Some e => (h ++ [ev (os_Stat (manifest_path c d))],
                      Exited (FatalIfError e "expected backup.json" []))
         | None => (h ++ [ev (os_Stat (manifest_path c d))], Returned tt)
         end.
Proof.
  unfold validate_entry.
  assert (Hdir : (if negb (DirEntry.IsDir d)
                  then fisk_FatalIfError None "expected a directory" []
                  else Ret tt) = Ret tt)
    by (destruct (DirEntry.IsDir d); reflexivity).
  rewrite Hdir, run_Ret.
  destruct (bool_decide (is_Some (ex !! DirEntry.Name d))); [reflexivity |].
  rewrite run_Ret, run_call. fold (manifest_path c d). cbn [respond].
  destruct (Stat_result w (manifest_path c d)); reflexivity.
Qed.

Lemma run_validation_passes (w : World) (c : actCmd) (ex : gmap string unit)
    (de : list DirEntry.t) :
  forall h,
    (forall d, In d de -> entry_valid w c ex d) ->
    run w h (for_range de (validate_entry c ex None) tt) =
      (h ++ map (fun d => ev (os_Stat (manifest_path c d))) de, Returned tt).
Proof.
  induction de as [| d rest IH]; intros h Hok.
  - simpl. now rewrite app_nil_r.
  - rewrite for_range_cons, run_bind, run_validate_entry.
    destruct (Hok d (or_introl eq_refl)) as [Hfree Hstat].
    rewrite bool_decide_eq_false_2 by exact Hfree. rewrite Hstat.
    rewrite IH by (intros d' Hd'; apply Hok; now right).
    rewrite <- app_assoc. reflexivity.
Qed.

Lemma run_validation_fails (w : World) (c : actCmd) (ex : gmap string unit)
    (de : list DirEntry.t) :
  forall h,
    (exists d, In d de /\ ~ entry_valid w c ex d) ->
    exists t f,
      run w h (for_range de (validate_entry c ex None) tt) = (h ++ t, Exited f) /\
      restores t = [].
Proof.
  induction de as [| d rest IH]; intros h [bad [Hin Hbad]]; [destruct Hin |].
  rewrite for_range_cons, run_bind, run_validate_entry.
  destruct (bool_decide (is_Some (ex !! DirEntry.Name d))) eqn:Hc.
  - exists [], (Fatalf "stream %q exists already" [op_string (DirEntry.Name d)]).
    rewrite app_nil_r. split; reflexivity.
  - destruct (Stat_result w (manifest_path c d)) as [e |] eqn:Hs.
    + exists [ev (os_Stat (manifest_path c d))], (FatalIfError e "expected backup.json" []).
      split; reflexivity.
    + assert (Hrest : exists d', In d' rest /\ ~ entry_valid w c ex d').
      { destruct Hin as [E | Hin]; [| exists bad; auto].
        subst bad. exfalso. apply Hbad. split; [| exact Hs].
        apply bool_decide_eq_false in Hc. exact Hc. }
      destruct (IH (h ++ [ev (os_Stat (manifest_path c d))]) Hrest) as [t [f [Hrun Ht]]].
      exists (ev (os_Stat (manifest_path c d)) :: t), f.
      rewrite Hrun, <- app_assoc. split; [reflexivity | exact Ht].
Qed.

Lemma with_backupDirectory_restore_call (c : actCmd) (s : streamCmd.t) (d : DirEntry.t) :
  streamCmd.with_backupDirectory s ""
    = streamCmd.mk (-1) false (placementCluster c) (placementTags c) "" ->
  streamCmd.with_backupDirectory s (filepath_Join [backupDirectory c; DirEntry.Name d])
    = restore_call c d.
Proof.
  destruct s. unfold streamCmd.with_backupDirectory, restore_call. simpl.
  intros H. injection H as -> -> -> ->. reflexivity.
Qed.

Lemma run_restore_entry (w : World) (c : actCmd) (d : DirEntry.t) (h : list Ev)
    (s : streamCmd.t) :
  streamCmd.with_backupDirectory s ""
    = streamCmd.mk (-1) false (placementCluster c) (placementTags c) "" ->
  run w h (restore_entry c d s) =
    (h ++ [ev (streamCmd_restoreAction (restore_call c d))],
     match restore_result w (restores h) (restore_call c d) with
     | Some e => Exited (FatalIfError e "restore for %s failed" [op_string (DirEntry.Name d)])
     | None => Returned (restore_call c d)
     end).
Proof.
  intros Hs. unfold restore_entry.
  rewrite (with_backupDirectory_restore_call c s d Hs).
  cbv zeta. rewrite run_call. cbn [respond].
  destruct (restore_result w (restores h) (restore_call c d)); reflexivity.
Qed.

Lemma run_restore_loop (w : World) (c : actCmd) (de : list DirEntry.t) :
  forall (h : list Ev) (s : streamCmd.t),
    streamCmd.with_backupDirectory s ""
      = streamCmd.mk (-1) false (placementCluster c) (placementTags c) "" ->
    match first_failure (restore_answers w (restores h) (map (restore_call c) de)) with
    | None =>
        exists s',
          run w h (for_range de (restore_entry c) s) =
            (h ++ map (fun d => ev (streamCmd_restoreAction (restore_call c d))) de,
             Returned s')
    | Some (i, e) =>
        exists d,
          nth_error de i = Some d /\
          run w h (for_range de (restore_entry c) s) =
            (h ++ map (fun d => ev (streamCmd_restoreAction (restore_call c d)))
                      (firstn (S i) de),
             Exited (FatalIfError e "restore for %s failed" [op_string (DirEntry.Name d)]))
    end.
Proof.
  induction de as [| d rest IH]; intros h s Hs.
  - simpl. exists s. now rewrite app_nil_r.
  - cbn [map restore_answers first_failure].
    specialize (IH (h ++ [ev (streamCmd_restoreAction (restore_call c d))])
                   (restore_call c d) eq_refl).
    rewrite restores_app in IH.
    change (restores [ev (streamCmd_restoreAction (restore_call c d))])
      with [restore_call c d] in IH.
    destruct (restore_result w (restores h) (restore_call c d)) as [e |] eqn:Ha.
    + exists d. split; [reflexivity |].
      rewrite for_range_cons, run_bind, (run_restore_entry w c d h s Hs), Ha.
      reflexivity.
    + destruct (first_failure (restore_answers w (restores h ++ [restore_call c d])
                                 (map (restore_call c) rest))) as [[i e] |].
      * destruct IH as [d' [Hnth Hrun]]. exists d'. split; [exact Hnth |].
        rewrite for_range_cons, run_bind, (run_restore_entry w c d h s Hs), Ha.
        rewrite Hrun, <- app_assoc. reflexivity.
      * destruct IH as [s' Hrun]. exists s'.
        rewrite for_range_cons, run_bind, (run_restore_entry w c d h s Hs), Ha.
        rewrite Hrun, <- app_assoc. reflexivity.
Qed.

(** ** Whole runs of [restoreAction] *)

Lemma restores_Stat (c : actCmd) (de : list DirEntry.t) :
  restores (map (fun d => ev (os_Stat (manifest_path c d))) de) = [].
Proof. induction de; simpl; auto. Qed.

(** Runs the command up to the validation loop, given [restore_ready]. *)
Ltac to_validation w c Hprep Hnames Hread HN HR :=
  unfold restoreAction; rewrite run_call; cbn [respond]; rewrite Hprep;
  simpl fisk_FatalIfError; rewrite run_Ret, run_call; cbn [respond];
  destruct (StreamNames_result w) as [names err0] eqn:HN; simpl in Hnames;
  subst err0; cbv beta iota zeta; simpl not_nil; cbv iota;
  rewrite run_call; cbn [respond];
  destruct (ReadDir_result w (backupDirectory c)) as [de err1] eqn:HR; simpl in Hread;
  subst err1; cbv beta iota; simpl fisk_FatalIfError; rewrite run_Ret;
  change ((([] ++ [ev prepareHelper]) ++ [ev mgr_StreamNames])
            ++ [ev (os_ReadDir (backupDirectory c))])
    with (setup_events c).

Lemma entries_valid (w : World) (c : actCmd) :
  (forall d, In d (entries w c) ->
             ~ collides w d /\ Stat_result w (manifest_path c d) = None) ->
  forall d, In d (entries w c) ->
    entry_valid w c
      (fold_left (fun m n => <[n := tt]> m) (existing w) (∅ : gmap string unit)) d.
Proof.
  intros H d Hd. destruct (H d Hd) as [Hc Hs]. split; [| exact Hs].
  now rewrite existingStreams_collides.
Qed.

Lemma run_restoreAction_validated (w : World) (c : actCmd) :
  validation_passes w c ->
  let pre := setup_events c
             ++ map (fun d => ev (os_Stat (manifest_path c d))) (entries w c)
             ++ [announce_event w c] in
  match first_failure (restore_answers w [] (map (restore_call c) (entries w c))) with
  | None =>
      run w [] (restoreAction c) =
        (pre ++ map (fun d => ev (streamCmd_restoreAction (restore_call c d))) (entries w c),
         Returned None)
  | Some (i, e) =>
      exists d,
        nth_error (entries w c) i = Some d /\
        run w [] (restoreAction c) =
          (pre ++ map (fun d => ev (streamCmd_restoreAction (restore_call c d)))
                      (firstn (S i) (entries w c)),
           Exited (FatalIfError e "restore for %s failed" [op_string (DirEntry.Name d)]))
  end.
Proof.
  intros [[Hprep [Hnames Hread]] Hok] pre.
  pose proof (entries_valid w c Hok) as Hvalid.
  unfold pre, announce_event. clear pre. unfold entries, existing in *.
  to_validation w c Hprep Hnames Hread HN HR.
  cbn [fst] in *.
  rewrite run_bind, (run_validation_passes w c _ de _ Hvalid). cbv beta iota.
  rewrite run_call. cbn [respond]. rewrite run_bind.
  match goal with
  | |- context [run w ?h (for_range de (restore_entry c) ?s)] =>
      pose proof (run_restore_loop w c de h s eq_refl) as L;
      replace (restores h) with (@nil streamCmd.t) in L
        by (rewrite !restores_app, restores_Stat; reflexivity)
  end.
  destruct (first_failure (restore_answers w [] (map (restore_call c) de))) as [[i e] |].
  - destruct L as [d [Hnth Hrun]]. exists d. split; [exact Hnth |].
    rewrite Hrun. rewrite <- !app_assoc. reflexivity.
  - destruct L as [s' Hrun]. rewrite Hrun. cbv beta iota.
    rewrite <- !app_assoc. reflexivity.
Qed.

Lemma stats_Stat (c : actCmd) (de : list DirEntry.t) :
  stats (map (fun d => ev (os_Stat (manifest_path c d))) de) = map (manifest_path c) de.
Proof. induction de as [| d rest IH]; simpl; [reflexivity |]. now rewrite <- IH. Qed.

Lemma stats_restore_events (c : actCmd) (de : list DirEntry.t) :
  stats (map (fun d => ev (streamCmd_restoreAction (restore_call c d))) de) = [].
Proof. induction de; simpl; auto. Qed.

Lemma restores_restore_events (c : actCmd) (de : list DirEntry.t) :
  restores (map (fun d => ev (streamCmd_restoreAction (restore_call c d))) de)
  = map (restore_call c) de.
Proof. induction de as [| d rest IH]; simpl; [reflexivity |]. now rewrite <- IH. Qed.

Lemma stats_app (h t : list Ev) : stats (h ++ t) = stats h ++ stats t.
Proof. apply omap_app. Qed.

Lemma stats_setup (c : actCmd) : stats (setup_events c) = [].
Proof. reflexivity. Qed.

Lemma restores_setup (c : actCmd) : restores (setup_events c) = [].
Proof. reflexivity. Qed.

Lemma stats_announce (w : World) (c : actCmd) : stats [announce_event w c] = [].
Proof. reflexivity. Qed.

Lemma restores_announce (w : World) (c : actCmd) : restores [announce_event w c] = [].
Proof. reflexivity. Qed.

Lemma restore_calls_placement (c : actCmd) (de : list DirEntry.t) :
  Forall (fun s => streamCmd.placementCluster s = placementCluster c /\
                   streamCmd.placementTags s = placementTags c)
         (map (restore_call c) de).
Proof. induction de; simpl; constructor; auto. Qed.

(** C4.  When every entry passes validation, the manifests were looked up
    in the order of the directory listing and the restores follow in the
    same order, each with the cluster and the tags of the command.  If no
    restore fails, every artifact directory is restored and the command
    returns nil; otherwise the restores stop with the first one that fails,
    nothing after it is attempted, and the process exits. *)
Theorem restore_in_order_until_first_failure (w : World) (c : actCmd) :
  validation_passes w c ->
  let de := entries w c in
  let cmds := map (restore_call c) de in
  stats (trace w (restoreAction c)) = map (manifest_path c) de /\
  Forall (fun s => streamCmd.placementCluster s = placementCluster c /\
                   streamCmd.placementTags s = placementTags c)
         (restores (trace w (restoreAction c))) /\
  match first_failure (restore_answers w [] cmds) with
  | None =>
      restores (trace w (restoreAction c)) = cmds /\
      outcome w (restoreAction c) = Returned None
  | Some (i, e) =>
      restores (trace w (restoreAction c)) = firstn (S i) cmds /\
      exists d,
        nth_error de i = Some d /\
        outcome w (restoreAction c) =
          Exited (FatalIfError e "restore for %s failed" [op_string (DirEntry.Name d)])
  end.
Proof.
  intros V de cmds. pose proof (run_restoreAction_validated w c V) as R.
  cbv zeta in R. fold de in R. fold cmds in R. unfold trace, outcome.
  destruct (first_failure (restore_answers w [] cmds)) as [[i e] |].
  - destruct R as [d [Hnth Hrun]]. rewrite Hrun. cbn [fst snd].
    rewrite !stats_app, !restores_app, stats_Stat, restores_Stat,
      stats_restore_events, restores_restore_events.
    rewrite stats_setup, restores_setup, stats_announce, restores_announce.
    cbn [app]. rewrite !app_nil_r.
    split; [reflexivity |]. split; [apply restore_calls_placement |].
    split; [unfold cmds; now rewrite firstn_map |].
    exists d. split; [exact Hnth | reflexivity].
  - rewrite R. cbn [fst snd].
    rewrite !stats_app, !restores_app, stats_Stat, restores_Stat,
      stats_restore_events, restores_restore_events.
    rewrite stats_setup, restores_setup, stats_announce, restores_announce.
    cbn [app]. rewrite !app_nil_r.
    split; [reflexivity |]. split; [apply restore_calls_placement |].
    split; reflexivity.
Qed.

Lemma sample_failing_restore_validated : validation_passes Sample.failing_restore Sample.cmd.
Proof.
  split; [repeat split |].
  intros d Hd. simpl in Hd. destruct Hd as [<- | [<- | []]].
  - split; [intros [H | []]; discriminate H | reflexivity].
  - split; [intros [H | []]; discriminate H | reflexivity].
Defined.

Lemma restore_in_order_until_first_failure_witness :
  restores (trace Sample.failing_restore (restoreAction Sample.cmd))
  = [restore_call Sample.cmd (DirEntry.mk "ORDERS" true)] /\
  exists d,
    nth_error (entries Sample.failing_restore Sample.cmd) 0 = Some d /\
    outcome Sample.failing_restore (restoreAction Sample.cmd) =
      Exited (FatalIfError (errors_New "stream name already in use")
                "restore for %s failed" [op_string (DirEntry.Name d)]).
Proof.
  exact (proj2 (proj2 (restore_in_order_until_first_failure
                         Sample.failing_restore Sample.cmd
                         sample_failing_restore_validated))).
Defined.

(** C2.  If an entry of the source root has the name of a stream of the
    target account, or the manifest of an entry cannot be found, then the
    restore primitive is never called and the run does not succeed,
    wherever the entry stands in the listing; when the connection, the
    stream names and the listing were obtained, the process exits. *)
Theorem restore_validates_before_acting (w : World) (c : actCmd) :
  (exists d, In d (entries w c) /\ (collides w d \/ lacks_manifest w c d)) ->
  restores (trace w (restoreAction c)) = [] /\
  outcome w (restoreAction c) <> Returned None /\
  (restore_ready w c -> exists f, outcome w (restoreAction c) = Exited f).
Proof.
  intros [bad [Hin Hbad]].
  assert (Hinvalid : exists d, In d (entries w c) /\
            ~ entry_valid w c
                (fold_left (fun m n => <[n := tt]> m) (existing w) (∅ : gmap string unit)) d).
  { exists bad. split; [exact Hin |]. intros [Hfree Hstat].
    destruct Hbad as [Hc | Hm]; [| now apply Hm].
    apply Hfree. now rewrite existingStreams_collides. }
  clear bad Hin Hbad. unfold trace, outcome, restore_ready.
  destruct (prepareHelper_err w) as [e |] eqn:Hprep.
  { unfold restoreAction. rewrite run_call. cbn [respond]. rewrite Hprep.
    cbn. split; [reflexivity |]. split; [discriminate |].
    intros [H _]. discriminate H. }
  destruct (snd (StreamNames_result w)) as [e |] eqn:Hnames.
  { unfold restoreAction. rewrite run_call. cbn [respond]. rewrite Hprep.
    simpl fisk_FatalIfError. rewrite run_Ret, run_call. cbn [respond].
    destruct (StreamNames_result w) as [names err0]. simpl in Hnames. subst err0.
    cbn. split; [reflexivity |]. split; [discriminate |].
    intros [_ [H _]]. discriminate H. }
  destruct (snd (ReadDir_result w (backupDirectory c))) as [e |] eqn:Hread.
  { unfold restoreAction. rewrite run_call. cbn [respond]. rewrite Hprep.
    simpl fisk_FatalIfError. rewrite run_Ret, run_call. cbn [respond].
    destruct (StreamNames_result w) as [names err0]. simpl in Hnames. subst err0.
    cbv beta iota zeta. simpl not_nil. cbv iota. rewrite run_call. cbn [respond].
    destruct (ReadDir_result w (backupDirectory c)) as [de err1]. simpl in Hread.
    subst err1. cbn. split; [reflexivity |]. split; [discriminate |].
    intros [_ [_ H]]. discriminate H. }
  unfold entries, existing in Hinvalid.
  to_validation w c Hprep Hnames Hread HN HR.
  cbn [fst] in Hinvalid.
  destruct (run_validation_fails w c _ de (setup_events c) Hinvalid) as [t [f [Hrun Ht]]].
  rewrite run_bind, Hrun. cbn [fst snd].
  rewrite restores_app, Ht, restores_setup.
  split; [reflexivity |]. split; [discriminate |].
  intros _. exists f. reflexivity.
Qed.

Lemma sample_late_collision :
  exists d, In d (entries Sample.late_collision Sample.cmd) /\
            (collides Sample.late_collision d \/
             lacks_manifest Sample.late_collision Sample.cmd d).
Proof.
  exists (DirEntry.mk "EVENTS" true). split.
  - right. left. reflexivity.
  - left. left. reflexivity.
Defined.

Lemma restore_validates_before_acting_witness :
  restores (trace Sample.late_collision (restoreAction Sample.cmd)) = [] /\
  outcome Sample.late_collision (restoreAction Sample.cmd) <> Returned None.
Proof.
  destruct (restore_validates_before_acting Sample.late_collision Sample.cmd
              sample_late_collision) as [Hnone [Hfail _]].
  split; [exact Hnone | exact Hfail].
Defined.

(** ** The directory check *)

(** C5 asks for a hard failure here; the command instead goes on.  The
    entry ORDERS of the source root is not a directory, and the command
    looks its manifest up, restores it and returns nil: the check calls
    [fisk.FatalIfError] with the nil error left by [os.ReadDir]. *)
Theorem restore_accepts_an_entry_that_is_no_directory :
  entries Sample.linked_root Sample.cmd = [DirEntry.mk "ORDERS" false] /\
  run Sample.linked_root [] (restoreAction Sample.cmd) =
    ([ ev prepareHelper;
       ev mgr_StreamNames;
       ev (os_ReadDir "/backup");
       ev (os_Stat "/backup/ORDERS/backup.json");
       ev (fmt_Printf "Restoring backup of all %d streams in directory %q\n\n"
             [op_int 1; op_string "/backup"]);
       ev (streamCmd_restoreAction (streamCmd.mk (-1) false "east" ["ssd"] "/backup/ORDERS")) ],
     Returned None).
Proof. split; vm_compute; reflexivity. Qed.

(** The check never ends a run: an entry is validated the same way whether
    or not it is a directory. *)
Lemma validate_entry_ignores_IsDir (c : actCmd) (ex : gmap string unit) (name : string) :
  validate_entry c ex None (DirEntry.mk name false) tt
  = validate_entry c ex None (DirEntry.mk name true) tt.
Proof. reflexivity. Qed.

(** * Further properties of the two commands *)

(** ** Runs that end during setup *)

(** X1.  Without a connection either command ends the process with
    "setup failed" and the error of [prepareHelper], after that one call. *)
Theorem setup_failure_exits (w : World) (c : actCmd) (e : error) :
  prepareHelper_err w = Some e ->
  run w [] (backupAction c) = ([ev prepareHelper], Exited (FatalIfError e "setup failed" [])) /\
  run w [] (restoreAction c) = ([ev prepareHelper], Exited (FatalIfError e "setup failed" [])).
Proof.
  intros H. split.
  - unfold backupAction. rewrite run_call. cbn [respond]. rewrite H. reflexivity.
  - unfold restoreAction. rewrite run_call. cbn [respond]. rewrite H. reflexivity.
Qed.

Lemma setup_failure_exits_witness :
  outcome Cases.no_connection (backupAction Sample.cmd)
  = Exited (FatalIfError (errors_New "nats: no servers available for connection")
              "setup failed" []).
Proof.
  exact (f_equal snd (proj1 (setup_failure_exits Cases.no_connection Sample.cmd _ eq_refl))).
Defined.

(** X2.  When the streams cannot be listed, a backup returns the error of
    [mgr.Streams] itself, also when the list it came with is empty, having
    read no state, printed nothing and asked nothing. *)
Theorem backup_returns_listing_error (w : World) (c : actCmd) (e : error) :
  prepareHelper_err w = None ->
  snd (Streams_result w) = Some e ->
  run w [] (backupAction c) = ([ev prepareHelper; ev mgr_Streams], Returned (Some e)).
Proof.
  intros Hprep Herr. unfold backupAction. rewrite run_call. cbn [respond]. rewrite Hprep.
  simpl fisk_FatalIfError. rewrite run_Ret, run_call. cbn [respond].
  destruct (Streams_result w) as [streams err]. simpl in Herr. subst err. reflexivity.
Qed.

Lemma backup_returns_listing_error_witness :
  run Cases.no_listing [] (backupAction Sample.cmd) =
    ([ev prepareHelper; ev mgr_Streams],
     Returned (Some (errors_New "context deadline exceeded"))).
Proof.
  exact (backup_returns_listing_error Cases.no_listing Sample.cmd _ eq_refl eq_refl).
Defined.

(** X3.  When the stream names cannot be listed, a restore returns the error
    of [mgr.StreamNames] without reading the source root. *)
Theorem restore_returns_listing_error (w : World) (c : actCmd) (e : error) :
  prepareHelper_err w = None ->
  snd (StreamNames_result w) = Some e ->
  run w [] (restoreAction c) = ([ev prepareHelper; ev mgr_StreamNames], Returned (Some e)).
Proof.
  intros Hprep Herr. unfold restoreAction. rewrite run_call. cbn [respond]. rewrite Hprep.
  simpl fisk_FatalIfError. rewrite run_Ret, run_call. cbn [respond].
  destruct (StreamNames_result w) as [names err]. simpl in Herr. subst err. reflexivity.
Qed.

Lemma restore_returns_listing_error_witness :
  run Cases.no_listing [] (restoreAction Sample.cmd) =
    ([ev prepareHelper; ev mgr_StreamNames],
     Returned (Some (errors_New "context deadline exceeded"))).
Proof.
  exact (restore_returns_listing_error Cases.no_listing Sample.cmd _ eq_refl eq_refl).
Defined.

(** X4.  When the source root cannot be read, a restore ends the process
    with "setup failed" and the error of [os.ReadDir], whatever entries
    came with the error; no manifest is looked up and nothing is restored. *)
Theorem restore_exits_on_unreadable_root (w : World) (c : actCmd) (e : error) :
  prepareHelper_err w = None ->
  snd (StreamNames_result w) = None ->
  snd (ReadDir_result w (backupDirectory c)) = Some e ->
  run w [] (restoreAction c) = (setup_events c, Exited (FatalIfError e "setup failed" [])).
Proof.
  intros Hprep Hnames Hread. unfold restoreAction. rewrite run_call. cbn [respond].
  rewrite Hprep. simpl fisk_FatalIfError. rewrite run_Ret, run_call. cbn [respond].
  destruct (StreamNames_result w) as [names err0]. simpl in Hnames. subst err0.
  cbv beta iota zeta. simpl not_nil. cbv iota. rewrite run_call. cbn [respond].
  destruct (ReadDir_result w (backupDirectory c)) as [de err1]. simpl in Hread.
  subst err1. reflexivity.
Qed.

Lemma restore_exits_on_unreadable_root_witness :
  run Cases.no_disk [] (restoreAction Sample.cmd) =
    (setup_events Sample.cmd,
     Exited (FatalIfError (errors_New "open /backup: permission denied") "setup failed" [])).
Proof.
  exact (restore_exits_on_unreadable_root Cases.no_disk Sample.cmd _ eq_refl eq_refl eq_refl).
Defined.

(** X5.  A restore from an empty source root succeeds: it announces zero
    streams, restores nothing and returns nil (a backup of zero streams is
    an error instead). *)
Theorem restore_of_empty_root (w : World) (c : actCmd) :
  restore_ready w c ->
  entries w c = [] ->
  run w [] (restoreAction c) =
    (setup_events c
       ++ [ev (fmt_Printf "Restoring backup of all %d streams in directory %q\n\n"
                 [op_int 0; op_string (backupDirectory c)])],
     Returned None).
Proof.
  intros [Hprep [Hnames Hread]] Hde. unfold entries in Hde.
  to_validation w c Hprep Hnames Hread HN HR.
  cbn [fst] in Hde. subst de. reflexivity.
Qed.

Lemma healthy_restore_ready : restore_ready Cases.healthy Sample.cmd.
Proof. repeat split. Defined.

Lemma restore_of_empty_root_witness :
  outcome Cases.healthy (restoreAction Sample.cmd) = Returned None.
Proof.
  exact (f_equal snd (restore_of_empty_root Cases.healthy Sample.cmd
                        healthy_restore_ready eq_refl)).
Defined.

(** ** The target directory *)



(** X6.  When the target directory cannot be created the backup returns the
    error of [os.MkdirAll] at once: no stream is backed up and no report is
    printed. *)
Theorem backup_stops_when_root_cannot_be_created (w : World) (c : actCmd) (e : error) :
  reaches_gate w ->
  force c = true \/ askConfirmation_result w "Perform backup" false = (true, None) ->
  MkdirAll_result w (backupDirectory c) 448 = Some e ->
  run w [] (backupAction c) =
    (preamble_events w c ++ gate_events c ++ [ev (os_MkdirAll (backupDirectory c) 448)],
     Returned (Some e)) /\
  backups (trace w (backupAction c)) = [].
Proof.
  intros G Hgate Hmk.
  pose proof (run_backupAction_MkdirAll_fails w c e G Hgate Hmk) as Hrun.
  split; [exact Hrun |]. unfold trace. rewrite Hrun. cbn [fst].
  rewrite !backups_app, backups_preamble, backups_gate. reflexivity.
Qed.

Lemma no_disk_reaches_gate : reaches_gate Cases.no_disk.
Proof. unfold reaches_gate. simpl. repeat split; try reflexivity; discriminate. Defined.

Lemma backup_stops_when_root_cannot_be_created_witness :
  outcome Cases.no_disk (backupAction Sample.cmd)
  = Returned (Some (errors_New "mkdir /backup: permission denied")) /\
  backups (trace Cases.no_disk (backupAction Sample.cmd)) = [].
Proof.
  destruct (backup_stops_when_root_cannot_be_created Cases.no_disk Sample.cmd _
              no_disk_reaches_gate (or_intror eq_refl) eq_refl) as [Hrun Hnone].
  split; [exact (f_equal snd Hrun) | exact Hnone].
Defined.



(** ** The records of the per-stream phase *)

Lemma quiet_phase (w : World) (c : actCmd) (streams : list Stream.t) :
  forall prev,
    Forall (fun a => a = None) (primitive_answers w c prev streams) ->
    phase_events w c prev streams = flat_map (quiet_events c) streams /\
    recorded_failures w c prev streams = [] /\
    recorded_warnings w c prev streams = [].
Proof.
  unfold recorded_failures, recorded_warnings.
  induction streams as [| s rest IH]; intros prev Hall; [repeat split |].
  cbn [primitive_answers] in Hall. inversion Hall as [| a l Ha Hl]; subst.
  destruct (IH _ Hl) as [He [Hf Hw]].
  cbn [phase_events primitive_answers combine flat_map]. rewrite Ha, He.
  split; [reflexivity |]. split.
  - rewrite omap_cons_app, Hf. reflexivity.
  - rewrite omap_cons_app, Hw. reflexivity.
Qed.

(** X8.  When every stream backs up without error the run makes, for each
    stream in turn, the backup call and one empty line, prints no report
    and returns nil. *)
Theorem backup_without_errors (w : World) (c : actCmd) :
  reaches_phase w c ->
  Forall (fun a => a = None) (primitive_answers w c [] (fst (Streams_result w))) ->
  run w [] (backupAction c) =
    (preamble_events w c ++ gate_events c ++ [ev (os_MkdirAll (backupDirectory c) 448)]
       ++ flat_map (quiet_events c) (fst (Streams_result w)),
     Returned None).
Proof.
  intros H Hall. rewrite (run_backupAction_phase w c H).
  destruct (quiet_phase w c _ [] Hall) as [He [Hf Hw]].
  unfold phase_trace, phase_result. rewrite He, Hf, Hw. cbn [report_events].
  now rewrite !app_nil_r.
Qed.

Lemma healthy_reaches_phase : reaches_phase Cases.healthy Sample.cmd.
Proof.
  unfold reaches_phase, reaches_gate. simpl.
  repeat split; try reflexivity; try discriminate. right. reflexivity.
Defined.

Lemma healthy_answers :
  Forall (fun a => a = None)
    (primitive_answers Cases.healthy Sample.cmd [] (fst (Streams_result Cases.healthy))).
Proof. repeat constructor. Defined.

Lemma backup_without_errors_witness :
  outcome Cases.healthy (backupAction Sample.cmd) = Returned None.
Proof.
  exact (f_equal snd (backup_without_errors Cases.healthy Sample.cmd
                        healthy_reaches_phase healthy_answers)).
Defined.

Lemma failure_record_Is (a : Stream.t * option error) (e : error) :
  failure_record a = Some e -> error_Is e jsm_ErrMemoryStreamNotSupported = false.
Proof.
  unfold failure_record. destruct (classify (snd a)); try discriminate.
  intros H. injection H as <-. reflexivity.
Qed.

Lemma warning_record_Is (a : Stream.t * option error) (e : error) :
  warning_record a = Some e -> error_Is e jsm_ErrMemoryStreamNotSupported = true.
Proof.
  unfold warning_record, classify. destruct (snd a) as [x |]; [| discriminate].
  destruct (error_Is x jsm_ErrMemoryStreamNotSupported) eqn:E; [| discriminate].
  intros H. injection H as <-. simpl. exact E.
Qed.

Lemma omap_Forall {A B : Type} (f : A -> option B) (P : B -> Prop) (l : list A) :
  (forall a b, f a = Some b -> P b) -> Forall P (omap f l).
Proof.
  intros H. induction l as [| a l IH]; simpl; [constructor |].
  destruct (f a) eqn:E; [constructor; eauto | exact IH].
Qed.

Lemma omap_two_length (l : list (Stream.t * option error)) :
  (length (omap failure_record l) + length (omap warning_record l) <= length l)%nat.
Proof.
  induction l as [| a l IH]; simpl in *; [lia |].
  unfold failure_record at 1, warning_record at 1.
  destruct (classify (snd a)); simpl in *; unfold omap in IH; lia.
Qed.

(** X9.  The second loop of a backup, started with empty records after any
    trace, always returns, with at most one record per stream.  Every
    warning it recorded still answers [errors.Is] for the memory-stream
    error, which it wraps with [%w]; no failure it recorded does, even when
    the error it was made from wrapped one, since [%s] keeps the text only. *)
Theorem backup_records_keep_their_kind (w : World) (c : actCmd) (streams : list Stream.t)
    (h : list Ev) :
  exists t errs warns,
    run w h (for_range streams (backup_one c) ([], [])) = (h ++ t, Returned (errs, warns)) /\
    Forall (fun e => errors_Is (Some e) jsm_ErrMemoryStreamNotSupported = true) warns /\
    Forall (fun e => errors_Is (Some e) jsm_ErrMemoryStreamNotSupported = false) errs /\
    (length errs + length warns <= length streams)%nat.
Proof.
  exists (phase_events w c (backups h) streams),
         (recorded_failures w c (backups h) streams),
         (recorded_warnings w c (backups h) streams).
  split; [exact (run_backup_loop w c streams h ([], [])) |].
  unfold recorded_failures, recorded_warnings.
  split; [apply omap_Forall; exact warning_record_Is |].
  split; [apply omap_Forall; exact failure_record_Is |].
  etransitivity; [apply omap_two_length |].
  rewrite length_combine. lia.
Qed.

(** ** What [--critical-warnings] changes *)

Lemma trace_bind_ext {A B : Type} (w : World) (p : Prog A) (k1 k2 : A -> Prog B)
    (h : list Ev) :
  (forall a h', fst (run w h' (k1 a)) = fst (run w h' (k2 a))) ->
  fst (run w h (bind p k1)) = fst (run w h (bind p k2)).
Proof.
  intros H. rewrite !run_bind. destruct (run w h p) as [h' [a | f]]; [apply H | reflexivity].
Qed.

(** Two programs that differ in the values they return only. *)
Ltac same_calls :=
  repeat first
    [ reflexivity
    | apply trace_bind_ext; intros
    | match goal with
      | |- context [match ?x with _ => _ end] => destruct x
      end ].

(** X10.  [failOnWarn] changes the result of a backup only: in every world
    the run makes the same calls and prints the same lines with the flag
    set and unset. *)
Theorem failOnWarn_changes_no_call (w : World) (c : actCmd) (b : bool) :
  trace w (backupAction (with_failOnWarn c b)) = trace w (backupAction c).
Proof.
  unfold trace, backupAction.
  change (backup_one (with_failOnWarn c b)) with (backup_one c).
  cbn [with_failOnWarn backupDirectory force failOnWarn].
  same_calls.
Qed.

(** ** The validation of a restore *)

Lemma run_for_range_app {A S : Type} (w : World) (l1 l2 : list A) (body : A -> S -> Prog S) :
  forall (h : list Ev) (st : S),
    run w h (for_range (l1 ++ l2) body st) =
    match run w h (for_range l1 body st) with
    | (h', Returned st') => run w h' (for_range l2 body st')
    | (h', Exited f) => (h', Exited f)
    end.
Proof.
  induction l1 as [| x l1 IH]; intros h st; [reflexivity |].
  change ((x :: l1) ++ l2) with (x :: (l1 ++ l2)).
  rewrite !for_range_cons, !run_bind.
  destruct (run w h (body x st)) as [h' [st' | f]]; [apply IH | reflexivity].
Qed.

(** X11.  A restore ends at the first entry of the listing that does not
    pass, and its message names that entry's fault: when the entries before
    it pass and its name exists on the target, the process exits with
    "stream ... exists already" before its manifest is looked up, whether or
    not it has one; when its name is free and its manifest cannot be found,
    the process exits with "expected backup.json" and the error of
    [os.Stat].  Nothing after the entry is examined. *)
Theorem restore_reports_first_offending_entry (w : World) (c : actCmd)
    (good rest : list DirEntry.t) (d : DirEntry.t) :
  restore_ready w c ->
  entries w c = good ++ d :: rest ->
  (forall g, In g good -> ~ collides w g /\ Stat_result w (manifest_path c g) = None) ->
  (collides w d ->
     run w [] (restoreAction c) =
       (setup_events c ++ stat_events c good,
        Exited (Fatalf "stream %q exists already" [op_string (DirEntry.Name d)]))) /\
  (forall e,
     ~ collides w d ->
     Stat_result w (manifest_path c d) = Some e ->
     run w [] (restoreAction c) =
       (setup_events c ++ stat_events c (good ++ [d]),
        Exited (FatalIfError e "expected backup.json" []))).
Proof.
  intros [Hprep [Hnames Hread]] Hde Hgood.
  assert (Hvalid : forall g, In g good ->
            entry_valid w c
              (fold_left (fun m n => <[n := tt]> m) (existing w) (∅ : gmap string unit)) g).
  { intros g Hg. destruct (Hgood g Hg) as [Hc Hs]. split; [| exact Hs].
    now rewrite existingStreams_collides. }
  pose proof (existingStreams_collides w d) as Hd.
  unfold entries, existing in *.
  split.
  - intros Hc.
    to_validation w c Hprep Hnames Hread HN HR. cbn [fst] in *. subst de.
    rewrite run_bind, run_for_range_app, (run_validation_passes w c _ good _ Hvalid).
    rewrite for_range_cons, run_bind, run_validate_entry.
    rewrite bool_decide_eq_true_2 by (apply Hd; exact Hc).
    reflexivity.
  - intros e Hc Hs.
    to_validation w c Hprep Hnames Hread HN HR. cbn [fst] in *. subst de.
    rewrite run_bind, run_for_range_app, (run_validation_passes w c _ good _ Hvalid).
    rewrite for_range_cons, run_bind, run_validate_entry.
    rewrite bool_decide_eq_false_2 by (intros H; apply Hc, Hd; exact H).
    rewrite Hs. unfold stat_events. rewrite map_app, app_assoc. reflexivity.
Qed.

Lemma second_entry_bad_ready : restore_ready Cases.second_entry_bad Sample.cmd.
Proof. repeat split. Defined.

Lemma second_entry_bad_first_passes :
  forall g, In g [DirEntry.mk "ORDERS" true] ->
    ~ collides Cases.second_entry_bad g /\
    Stat_result Cases.second_entry_bad (manifest_path Sample.cmd g) = None.
Proof.
  intros g [<- | []]. split; [intros [H | []]; discriminate H | reflexivity].
Defined.

Lemma restore_reports_first_offending_entry_witness :
  run Cases.second_entry_bad [] (restoreAction Sample.cmd) =
    (setup_events Sample.cmd ++ [ev (os_Stat "/backup/ORDERS/backup.json")],
     Exited (Fatalf "stream %q exists already" [op_string "EVENTS"])).
Proof.
  exact (proj1 (restore_reports_first_offending_entry Cases.second_entry_bad Sample.cmd
                  [DirEntry.mk "ORDERS" true] [DirEntry.mk "LOGS" true]
                  (DirEntry.mk "EVENTS" true)
                  second_entry_bad_ready eq_refl second_entry_bad_first_passes)
               (or_introl eq_refl)).
Defined.

Lemma validation_ignores_IsDir (w : World) (c : actCmd) (ex : gmap string unit)
    (de : list DirEntry.t) :
  forall h,
    run (as_directories w) h (for_range (map as_directory de) (validate_entry c ex None) tt)
    = run w h (for_range de (validate_entry c ex None) tt).
Proof.
  induction de as [| d rest IH]; intros h; [reflexivity |].
  cbn [map]. rewrite !for_range_cons, !run_bind, !run_validate_entry.
  change (DirEntry.Name (as_directory d)) with (DirEntry.Name d).
  change (manifest_path c (as_directory d)) with (manifest_path c d).
  change (Stat_result (as_directories w)) with (Stat_result w).
  destruct (bool_decide (is_Some (ex !! DirEntry.Name d))); [reflexivity |].
  destruct (Stat_result w (manifest_path c d)); [reflexivity |].
  apply IH.
Qed.

Lemma restores_ignore_IsDir (w : World) (c : actCmd) (de : list DirEntry.t) :
  forall h s,
    run (as_directories w) h (for_range (map as_directory de) (restore_entry c) s)
    = run w h (for_range de (restore_entry c) s).
Proof.
  induction de as [| d rest IH]; intros h s; [reflexivity |].
  cbn [map]. rewrite !for_range_cons, !run_bind.
  change (restore_entry c (as_directory d) s) with (restore_entry c d s).
  assert (H1 : run (as_directories w) h (restore_entry c d s) = run w h (restore_entry c d s)).
  { unfold restore_entry. cbv zeta. rewrite !run_call.
    cbn [respond as_directories restore_result].
    destruct (restore_result w _ _); reflexivity. }
  rewrite H1. destruct (run w h (restore_entry c d s)) as [h' [s' | f]]; [apply IH | reflexivity].
Qed.

(** X12.  A restore never looks at whether an entry of the source root is a
    directory: it makes the same calls and ends the same way when
    [os.ReadDir] reports every entry as a directory. *)
Theorem restore_ignores_IsDir (w : World) (c : actCmd) :
  run (as_directories w) [] (restoreAction c) = run w [] (restoreAction c).
Proof.
  unfold restoreAction. rewrite !run_call. cbn [respond as_directories prepareHelper_err].
  destruct (prepareHelper_err w) as [e |]; [reflexivity |].
  simpl fisk_FatalIfError. rewrite !run_Ret, !run_call.
  cbn [respond as_directories StreamNames_result].
  destruct (StreamNames_result w) as [names [e |]]; [reflexivity |].
  cbv beta iota zeta. simpl not_nil. cbv iota. rewrite !run_call.
  cbn [respond as_directories ReadDir_result].
  destruct (ReadDir_result w (backupDirectory c)) as [de [e |]]; cbn [fst snd];
    [reflexivity |].
  simpl fisk_FatalIfError. rewrite !run_Ret, !run_bind, validation_ignores_IsDir.
  destruct (run w _ (for_range de _ tt)) as [h' [[] | f]]; [| reflexivity].
  rewrite !run_call. cbn [respond]. unfold len. rewrite length_map.
  rewrite !run_bind, restores_ignore_IsDir. reflexivity.
Qed.

(** * Account information *)

(** ** How [infoAction] ends *)

Lemma len_gtb_nonempty {A : Type} (l : list A) : (len l >? 0) = true <-> l <> [].
Proof.
  destruct l as [| x l]; [split; [discriminate | intros H; now contradiction H] |].
  rewrite len_pos_cons. split; [discriminate | reflexivity].
Qed.

Lemma tls_lines_panics (tlsc : tls.ConnectionState) :
  snd (tls_lines tlsc) = false <-> no_peer_certificate tlsc.
Proof.
  unfold tls_lines, no_peer_certificate.
  destruct (tls.HandshakeComplete tlsc); [| split; [discriminate | intros [H _]; discriminate H]].
  destruct (len (tls.VerifiedChains tlsc) >? 0) eqn:E.
  - apply len_gtb_nonempty in E.
    destruct (tls.PeerCertificates tlsc); simpl.
    + split; [auto | reflexivity].
    + split; [discriminate | intros [_ [_ H]]; discriminate H].
  - simpl. split; [discriminate |]. intros [_ [H _]].
    apply len_gtb_nonempty in H. rewrite H in E. discriminate E.
Qed.

(** X13.  [infoAction] never returns an error.  It ends the process when
    there is no connection, and only then; it panics when the TLS state
    has verified chains but no peer certificate, or when the account
    information came as a nil pointer without an error, and only then; in
    every other case it returns nil, whatever error the request for the
    account information gave. *)
Theorem infoAction_never_returns_an_error (w : InfoWorld) :
  (forall e, snd (infoAction w) <> returned (Some e)) /\
  ((exists f, snd (infoAction w) = exited f) <-> setup_err w <> None) /\
  (snd (infoAction w) = panicked <->
     setup_err w = None /\
     (no_peer_certificate (nats.TLSConnectionState (nc w)) \/ no_account_no_error w)).
Proof.
  unfold infoAction, no_account_no_error.
  destruct (setup_err w) as [e |] eqn:Hs.
  { cbn [snd]. split; [discriminate |]. split.
    - split; [discriminate | intros _; eexists; reflexivity].
    - split; [discriminate | intros [H _]; discriminate H]. }
  cbv zeta.
  pose proof (tls_lines_panics (nats.TLSConnectionState (nc w))) as Hp.
  destruct (tls_lines (nats.TLSConnectionState (nc w))) as [lines [|]]; cbn [snd] in Hp.
  - assert (Hnp : ~ no_peer_certificate (nats.TLSConnectionState (nc w)))
      by (intros H; apply Hp in H; discriminate H).
    destruct (JetStreamAccountInfo w) as [[info |] [[[| |] | text | format a] |]]; cbn [snd].
    all: split; [discriminate |].
    all: split; [split; [intros [f H]; discriminate H | intros H; now contradiction H] |].
    all: split; [discriminate || (intros _; split; [reflexivity | now right]) |].
    all: try (intros [_ [H | H]]; [contradiction | discriminate H]).
    intros _. reflexivity.
  - cbn [snd]. split; [discriminate |]. split.
    + split; [intros [f H]; discriminate H | intros H; now contradiction H].
    + split; [| reflexivity]. intros _. split; [reflexivity |]. left. now apply Hp.
Qed.

(** ** The account section of [infoAction] *)

Lemma tier_names_app (l1 l2 : list out) : tier_names (l1 ++ l2) = tier_names l1 ++ tier_names l2.
Proof. apply omap_app. Qed.


Lemma tier_names_tls_lines (tlsc : tls.ConnectionState) : tier_names (fst (tls_lines tlsc)) = [].
Proof.
  unfold tls_lines. destruct (tls.HandshakeComplete tlsc); [| reflexivity].
  destruct (len (tls.VerifiedChains tlsc) >? 0), (tls.PeerCertificates tlsc),
    (tls_version (tls.Version tlsc)); reflexivity.
Qed.


(** The lines up to the [switch] on the error of the account information. *)
Lemma infoAction_heading (w : InfoWorld) :
  setup_err w = None ->
  ~ no_peer_certificate (nats.TLSConnectionState (nc w)) ->
  exists heading,
    tier_names heading = [] /\
    infoAction w =
      match JetStreamAccountInfo w with
      | (Some info, None) =>
          (heading ++ account_lines (nats.MaxPayload (nc w)) info ++ [Println []],
           returned None)
      | (None, None) => (heading, panicked)
      | (_, Some (pkg_error context_DeadlineExceeded)) =>
          (heading ++ [Printf "   No response from JetStream server" []; Println []],
           returned None)
      | (_, Some (pkg_error nats_ErrNoResponders)) =>
          (heading ++ [Printf "   JetStream is not supported in this account" []; Println []],
           returned None)
      | (_, Some e) =>
          (heading ++ [Printf "   Could not obtain account information: %s" [v_error (Some e)];
                       Println []],
           returned None)
      end.
Proof.
  intros Hs Hnp. unfold infoAction. rewrite Hs. cbv zeta.
  pose proof (tls_lines_panics (nats.TLSConnectionState (nc w))) as Hp.
  pose proof (tier_names_tls_lines (nats.TLSConnectionState (nc w))) as Ht.
  destruct (tls_lines (nats.TLSConnectionState (nc w))) as [lines [|]]; cbn [fst snd] in *;
    [| exfalso; apply Hnp, Hp; reflexivity].
  eexists. split; [| destruct (JetStreamAccountInfo w)
                       as [[info |] [[[| |] | text | format a] |]]; reflexivity].
  rewrite !tier_names_app, Ht.
  destruct (negb (String.eqb (nats.ConnectedClusterName (nc w)) "")),
    (negb (String.eqb (nats.ConnectedServerId (nc w)) (nats.ConnectedServerName (nc w))));
    reflexivity.
Qed.

(** X14.  The error of the account information is matched by identity, not
    with [errors.Is]: exactly [context.DeadlineExceeded] gives "No
    response", exactly [nats.ErrNoResponders] gives "not supported", and
    every other error, also one that wraps either of them, gives "Could not
    obtain account information" with the error.  In all three cases no
    tier is printed and the function returns nil. *)
Theorem account_error_is_matched_by_identity (w : InfoWorld)
    (info : option api.JetStreamAccountStats) (e : error) :
  setup_err w = None ->
  ~ no_peer_certificate (nats.TLSConnectionState (nc w)) ->
  JetStreamAccountInfo w = (info, Some e) ->
  exists heading,
    fst (infoAction w) =
      heading
      ++ [ match e with
           | pkg_error context_DeadlineExceeded =>
               Printf "   No response from JetStream server" []
           | pkg_error nats_ErrNoResponders =>
               Printf "   JetStream is not supported in this account" []
           | _ => Printf "   Could not obtain account information: %s" [v_error (Some e)]
           end;
           Println [] ] /\
    tier_names (fst (infoAction w)) = [] /\
    snd (infoAction w) = returned None.
Proof.
  intros Hs Hnp Ha. destruct (infoAction_heading w Hs Hnp) as [heading [Hh Hrun]].
  rewrite Ha in Hrun. exists heading. rewrite Hrun.
  destruct info as [info |], e as [[| |] | text | format a]; cbn [fst snd];
    rewrite tier_names_app, Hh; repeat split; reflexivity.
Qed.

Lemma plain_has_no_missing_certificate :
  ~ no_peer_certificate (nats.TLSConnectionState (nc InfoCases.wrapped_timeout)).
Proof. intros [H _]. discriminate H. Defined.

Lemma account_error_is_matched_by_identity_witness :
  errors_Is (snd (JetStreamAccountInfo InfoCases.wrapped_timeout)) context_DeadlineExceeded
  = true /\
  exists heading,
    fst (infoAction InfoCases.wrapped_timeout) =
      heading
      ++ [ Printf "   Could not obtain account information: %s"
             [v_error (snd (JetStreamAccountInfo InfoCases.wrapped_timeout))];
           Println [] ].
Proof.
  split; [reflexivity |].
  destruct (account_error_is_matched_by_identity InfoCases.wrapped_timeout None _
              eq_refl plain_has_no_missing_certificate eq_refl) as [heading [H _]].
  exists heading. exact H.
Defined.



(** ** The limits of a tier *)

(** Finds a line in a list of lines given by its elements. *)
Ltac line_in := cbn [In]; repeat (first [left; reflexivity | right]).

(** Shows that a line of a format is not among lines of other formats, or
    is the line of one condition. *)
Ltac line_of H :=
  cbn [In] in H;
  repeat (destruct H as [H | H]; [try discriminate H |]);
  try contradiction;
  repeat match type of H with
         | context [if ?b then _ else _] => destruct b eqn:?; try discriminate H
         end.

(** X16.  What [renderTier] calls unlimited.  The account-wide limits on
    memory, storage, streams and consumers read "Unlimited" when they are
    -1 and only then: a limit of 0 reads as a limit of 0.  The limits on
    pending acknowledgements and on the bytes of one stream read
    "Unlimited" when they are 0 or negative. *)
Theorem renderTier_says_unlimited (name : string) (tier : api.JetStreamTier) :
  let limits := api.Limits tier in
  let lines := renderTier name tier in
  (says "          Consumer Maximum Ack Pending: Unlimited\n" lines <-> api.MaxAckPending limits <= 0) /\
  (says "                    Memory: %s of Unlimited\n" lines <-> api.MaxMemory limits = -1) /\
  (says "         Memory Per Stream: Unlimited\n" lines <-> api.MemoryMaxStreamBytes limits <= 0) /\
  (says "                   Storage: %s of Unlimited\n" lines <-> api.MaxStore limits = -1) /\
  (says "        Storage Per Stream: Unlimited\n" lines <-> api.StoreMaxStreamBytes limits <= 0) /\
  (says "                   Streams: %s of Unlimited\n" lines <-> api.MaxStreams limits = -1) /\
  (says "                 Consumers: %s of Unlimited\n" lines <-> api.MaxConsumers limits = -1).
Proof.
  intros limits lines. unfold lines, says, renderTier. cbv zeta. fold limits.
  repeat split.
  all: try (intros [a H]; line_of H;
            first [apply Z.leb_le; assumption | apply Z.eqb_eq; assumption]).
  all: intros H;
    first [apply Z.leb_le in H | apply Z.eqb_eq in H]; rewrite H;
    eexists; line_in.
Qed.

Lemma uint64_of_int64 (x : Z) :
  - 2 ^ 63 <= x < 2 ^ 63 -> uint64 x = if (x <? 0)%Z then 2 ^ 64 + x else x.
Proof.
  intros H. unfold uint64. destruct (x <? 0)%Z eqn:E.
  - apply Z.ltb_lt in E. symmetry. apply (Z.mod_unique_pos _ _ (-1)); lia.
  - apply Z.ltb_ge in E. apply Z.mod_small. lia.
Qed.

(** X17.  A memory or storage limit other than -1 is printed through
    [uint64]: a limit of 0 or more is printed as it is, and a negative one
    as 2^64 plus the limit, next to the amount in use. *)
Theorem renderTier_converts_limits (name : string) (tier : api.JetStreamTier) :
  let limits := api.Limits tier in
  let shown := fun x : Z => if (x <? 0)%Z then 2 ^ 64 + x else x in
  (api.MaxMemory limits <> -1 ->
   - 2 ^ 63 <= api.MaxMemory limits < 2 ^ 63 ->
   In (Printf "                    Memory: %s of %s\n" [v_IBytes (api.Memory tier); v_IBytes (shown (api.MaxMemory limits))])
      (renderTier name tier)) /\
  (api.MaxStore limits <> -1 ->
   - 2 ^ 63 <= api.MaxStore limits < 2 ^ 63 ->
   In (Printf "                   Storage: %s of %s\n" [v_IBytes (api.Store tier); v_IBytes (shown (api.MaxStore limits))])
      (renderTier name tier)).
Proof.
  intros limits shown. unfold shown, renderTier. cbv zeta. fold limits. split.
  - intros Hne Hr. apply Z.eqb_neq in Hne. rewrite Hne, (uint64_of_int64 _ Hr). line_in.
  - intros Hne Hr. apply Z.eqb_neq in Hne. rewrite Hne, (uint64_of_int64 _ Hr). line_in.
Qed.

Lemma renderTier_converts_limits_witness :
  In (Printf "                    Memory: %s of %s\n" [v_IBytes 1024; v_IBytes 18446744073709551614])
     (renderTier "R1" (InfoCases.tier (-2))).
Proof.
  refine (proj1 (renderTier_converts_limits "R1" (InfoCases.tier (-2))) _ _).
  - discriminate.
  - split; [discriminate | reflexivity].
Defined.
